(** * QemuSensor: the emulated camera sensor of the goldfish camera HAL

    A shallow embedding of [camera/qemu-pipeline3/QemuSensor.cpp].

    The sensor object, the [Buffers] vectors it borrows, the image byte
    regions, the host camera client and the clock are gathered in one
    [World]; every member function is a state transformer over it.  What
    the sensor does to the outside (mutex and condition operations, log
    lines, listener callbacks, queries sent to the host camera) is appended
    to a chronological [trace].

    Blocking waits on a condition variable release the mutex; what the
    other threads leave in the guarded slot when the wait returns is given
    to the waiting function as a [Wakeup] value. *)

From Stdlib Require Import ZArith List Bool Lia String.
From stdpp Require Import base gmap list.

Local Open Scope Z_scope.

(** ** Machine integers *)

(** [uint32_t] and [uint64_t] results wrap around; [nsecs_t] is [int64_t]. *)
Definition u32 (z : Z) : Z := z mod 2 ^ 32.
Definition u64 (z : Z) : Z := z mod 2 ^ 64.
Definition s64 (z : Z) : Z := (z + 2 ^ 63) mod 2 ^ 64 - 2 ^ 63.

(** Pointers are addresses; [nullptr] is address 0. *)
Abbreviation ptr := Z (only parsing).
Definition nullptr : ptr := 0.

Abbreviation status_t := Z (only parsing).

(** ** Constants of the platform headers the source includes
    ([utils/Errors.h], [system/graphics.h], [linux/videodev2.h]) *)

Definition OK : status_t := 0.
Definition NO_ERROR : status_t := 0.
Definition TIMED_OUT : status_t := -110.

Definition HAL_PIXEL_FORMAT_RGBA_8888 : Z := 1.
Definition HAL_PIXEL_FORMAT_RGB_888 : Z := 3.
Definition HAL_PIXEL_FORMAT_BLOB : Z := 33.
Definition HAL_PIXEL_FORMAT_YCbCr_420_888 : Z := 35.
Definition HAL_DATASPACE_DEPTH : Z := 4096.

Definition v4l2_fourcc (a b c d : Z) : Z :=
  Z.lor (Z.lor a (Z.shiftl b 8)) (Z.lor (Z.shiftl c 16) (Z.shiftl d 24)).
(** 'N' 'V' '2' '1' *)
Definition V4L2_PIX_FMT_NV21 : Z := v4l2_fourcc 78 86 50 49.

(** ** Constants of QemuSensor.cpp *)

Definition kExposureTimeRange : Z * Z := (1000, 300000000).
Definition kFrameDurationRange : Z * Z := (33331760, 300000000).
Definition kMinVerticalBlank : Z := 10000.
Definition kSensitivityRange : Z * Z := (100, 1600).
Definition kDefaultSensitivity : Z := 100.

(** ** Data model *)

(** One output buffer of a request.  The struct is declared in a header
    that is not among the sources; the fields are the ones [threadLoop]
    reads and writes. *)
Record StreamBuffer := mkStreamBuffer {
  streamId : Z;
  width : Z;
  height : Z;
  format : Z;
  dataSpace : Z;
  stride : Z;
  buffer : ptr;
  img : ptr
}.

(** [Buffers] is a [Vector<StreamBuffer>]. *)
Abbreviation Buffers := (list StreamBuffer) (only parsing).

(** Modelled from the spec: the enumeration of device states is declared in
    the absent header.  The spec names three sensor states (INITIAL,
    CONNECTED, STARTED); the source assigns [ECDS_CONNECTED] and
    [ECDS_STARTED]. *)
Inductive EmulatedCameraDeviceState :=
| ECDS_INITIAL
| ECDS_CONNECTED
| ECDS_STARTED.

(** The fields of the [QemuSensor] object.  [mLastRequestWidth] and
    [mLastRequestHeight] are 32-bit fields initialised with [-1] and
    compared with [uint32_t] operands; both their comparison with a
    [uint32_t] and the test against [-1] only depend on the 32-bit pattern,
    so they are kept as that pattern: the sentinel is [u32 (-1)]. *)
Record QemuSensor := mkQemuSensor {
  mWidth : Z;
  mHeight : Z;
  mLastRequestWidth : Z;
  mLastRequestHeight : Z;
  mState : EmulatedCameraDeviceState;
  (* guarded by mControlMutex *)
  mGotVSync : bool;
  mFrameDuration : Z;
  mNextBuffers : ptr;
  mFrameNumber : Z;
  mListener : ptr;
  (* guarded by mReadoutMutex *)
  mCapturedBuffers : ptr;
  mCaptureTime : Z;
  (* private to the sensor thread *)
  mStartupTime : Z;
  mNextCaptureTime : Z;
  mNextCapturedBuffers : ptr
}.

Inductive Mutex := mControlMutex | mReadoutMutex.
Inductive Condition := mVSync | mReadoutAvailable | mReadoutComplete.
Inductive LogPriority := LOG_INFO | LOG_WARN | LOG_ERROR.

(** What the sensor does to its environment.  [ALOGV] and [ALOGVV] lines
    are compiled out ([LOG_NDEBUG] and [LOG_NNDEBUG] are left undefined) and
    leave no event.  The white balance and exposure compensation passed to
    [queryFrame] are the constant 1.0f and are not recorded. *)
Inductive Event :=
| EvLock (m : Mutex)
| EvUnlock (m : Mutex)
| EvSignal (c : Condition)
| EvWait (c : Condition)
| EvSystemTime (t : Z)
| EvNanosleep (sec nsec : Z)
| EvExposureStart (listener : ptr) (frameNumber : Z) (timestamp : Z)
| EvLog (prio : LogPriority) (fmt : string)
| EvQueryStop
| EvQueryStart (pixFmt w h : Z)
| EvQueryFrame (vframe pframe : ptr) (vframeSize pframeSize : Z).

(** A byte of an image region: [new uint8_t[n]] leaves them indeterminate. *)
Inductive Cell :=
| Undef
| Byte (b : Z).

(** The environment the sensor thread talks to: the host camera answers the
    k-th query with status [replies k] (and frame [payloads k]), the k-th
    reading of the clock gives [clock k], and [uninit] is the indeterminate
    value read from a member that was never assigned. *)
Record Host := mkHost {
  replies : nat -> status_t;
  payloads : nat -> list Z;
  queries : nat;
  clock : nat -> Z;
  ticks : nat;
  uninit : Z
}.

Record World := mkWorld {
  sensor : QemuSensor;
  vectors : gmap Z Buffers;
  heap : gmap Z (list Cell);
  host : Host;
  trace : list Event
}.

(** What a thread finds in the readout slot when its wait on a condition
    returns: the other threads ran while the mutex was released. *)
Record Wakeup := mkWakeup {
  wslot : ptr;
  wtime : Z
}.

(** ** Field updates *)

Definition set_sensor (f : QemuSensor -> QemuSensor) (w : World) : World :=
  let '(mkWorld s v hp h t) := w in mkWorld (f s) v hp h t.
Definition set_vectors (v' : gmap Z Buffers) (w : World) : World :=
  let '(mkWorld s v hp h t) := w in mkWorld s v' hp h t.
Definition set_heap (hp' : gmap Z (list Cell)) (w : World) : World :=
  let '(mkWorld s v hp h t) := w in mkWorld s v hp' h t.
Definition set_host (h' : Host) (w : World) : World :=
  let '(mkWorld s v hp h t) := w in mkWorld s v hp h' t.
Definition emit (e : Event) (w : World) : World :=
  let '(mkWorld s v hp h t) := w in mkWorld s v hp h (t ++ [e]).

Definition with_latch (lw' lh' : Z) (s : QemuSensor) : QemuSensor :=
  let '(mkQemuSensor wd ht lw lh st gv fd nb fn l cb ct su nct ncb) := s in
  mkQemuSensor wd ht lw' lh' st gv fd nb fn l cb ct su nct ncb.
Definition with_mState (st' : EmulatedCameraDeviceState) (s : QemuSensor) : QemuSensor :=
  let '(mkQemuSensor wd ht lw lh st gv fd nb fn l cb ct su nct ncb) := s in
  mkQemuSensor wd ht lw lh st' gv fd nb fn l cb ct su nct ncb.
Definition with_mGotVSync (gv' : bool) (s : QemuSensor) : QemuSensor :=
  let '(mkQemuSensor wd ht lw lh st gv fd nb fn l cb ct su nct ncb) := s in
  mkQemuSensor wd ht lw lh st gv' fd nb fn l cb ct su nct ncb.
Definition with_mFrameDuration (fd' : Z) (s : QemuSensor) : QemuSensor :=
  let '(mkQemuSensor wd ht lw lh st gv fd nb fn l cb ct su nct ncb) := s in
  mkQemuSensor wd ht lw lh st gv fd' nb fn l cb ct su nct ncb.
Definition with_mNextBuffers (nb' : ptr) (s : QemuSensor) : QemuSensor :=
  let '(mkQemuSensor wd ht lw lh st gv fd nb fn l cb ct su nct ncb) := s in
  mkQemuSensor wd ht lw lh st gv fd nb' fn l cb ct su nct ncb.
Definition with_mFrameNumber (fn' : Z) (s : QemuSensor) : QemuSensor :=
  let '(mkQemuSensor wd ht lw lh st gv fd nb fn l cb ct su nct ncb) := s in
  mkQemuSensor wd ht lw lh st gv fd nb fn' l cb ct su nct ncb.
Definition with_mListener (l' : ptr) (s : QemuSensor) : QemuSensor :=
  let '(mkQemuSensor wd ht lw lh st gv fd nb fn l cb ct su nct ncb) := s in
  mkQemuSensor wd ht lw lh st gv fd nb fn l' cb ct su nct ncb.
Definition with_mCapturedBuffers (cb' : ptr) (s : QemuSensor) : QemuSensor :=
  let '(mkQemuSensor wd ht lw lh st gv fd nb fn l cb ct su nct ncb) := s in
  mkQemuSensor wd ht lw lh st gv fd nb fn l cb' ct su nct ncb.
Definition with_mCaptureTime (ct' : Z) (s : QemuSensor) : QemuSensor :=
  let '(mkQemuSensor wd ht lw lh st gv fd nb fn l cb ct su nct ncb) := s in
  mkQemuSensor wd ht lw lh st gv fd nb fn l cb ct' su nct ncb.
Definition with_readout (cb' : ptr) (ct' : Z) (s : QemuSensor) : QemuSensor :=
  with_mCaptureTime ct' (with_mCapturedBuffers cb' s).
Definition with_mStartupTime (su' : Z) (s : QemuSensor) : QemuSensor :=
  let '(mkQemuSensor wd ht lw lh st gv fd nb fn l cb ct su nct ncb) := s in
  mkQemuSensor wd ht lw lh st gv fd nb fn l cb ct su' nct ncb.
Definition with_mNextCaptureTime (nct' : Z) (s : QemuSensor) : QemuSensor :=
  let '(mkQemuSensor wd ht lw lh st gv fd nb fn l cb ct su nct ncb) := s in
  mkQemuSensor wd ht lw lh st gv fd nb fn l cb ct su nct' ncb.
Definition with_mNextCapturedBuffers (ncb' : ptr) (s : QemuSensor) : QemuSensor :=
  let '(mkQemuSensor wd ht lw lh st gv fd nb fn l cb ct su nct ncb) := s in
  mkQemuSensor wd ht lw lh st gv fd nb fn l cb ct su nct ncb'.

(** ** The state monad of member functions *)

Definition M (A : Type) : Type := World -> A * World.

Definition ret {A} (a : A) : M A := fun w => (a, w).
Definition bind {A B} (c : M A) (k : A -> M B) : M B :=
  fun w => let (a, w') := c w in k a w'.

Notation "'let*' x ':=' c 'in' k" := (bind c (fun x => k))
  (at level 10, x name, c at level 100, k at level 200).
Notation "c '>>' k" := (bind c (fun _ => k))
  (at level 62, right associativity).

Definition exec {A} (c : M A) (w : World) : World := snd (c w).
Definition eval {A} (c : M A) (w : World) : A := fst (c w).

Definition getSensor : M QemuSensor := fun w => (sensor w, w).
Definition modify (f : QemuSensor -> QemuSensor) : M unit :=
  fun w => (tt, set_sensor f w).
Definition event (e : Event) : M unit := fun w => (tt, emit e w).
Definition when (b : bool) (c : M unit) : M unit := if b then c else ret tt.

(** The events appended to the trace between two worlds. *)
Definition emitted (w w' : World) : list Event :=
  drop (length (trace w)) (trace w').

(** ** The host camera client *)

Definition next_query (h : Host) : Host :=
  let '(mkHost r p q c t u) := h in mkHost r p (S q) c t u.
Definition next_tick (h : Host) : Host :=
  let '(mkHost r p q c t u) := h in mkHost r p q c (S t) u.

(** Modelled from the spec: [CameraQemuClient], the "UpstreamClient", is
    not among the sources.  It is a synchronous facade whose operations
    each return [OK] or a numeric error: the status of the next query is
    the next reply of the host. *)
Definition reply : M status_t :=
  fun w => (replies (host w) (queries (host w)), set_host (next_query (host w)) w).

(** Modelled from the spec: [CameraQemuClient::queryFrame] is not among the
    sources; "the call blocks until the next frame is delivered into that
    buffer": the frame overwrites the first bytes of the region at [p],
    when [p] is not null. *)
Definition store_frame (frame : list Z) (n : Z) (old : list Cell) : list Cell :=
  let bytes := take (Z.to_nat n) frame in
  (Byte <$> bytes) ++ drop (length bytes) old.
Definition deliver (p : ptr) (n : Z) (frame : list Z) : M unit :=
  fun w => if p =? nullptr then (tt, w)
           else (tt, set_heap (alter (store_frame frame n) p (heap w)) w).

(** Modelled from the spec: [CameraQemuClient::queryStop] is not among the
    sources; "stop() quiesces the host source". *)
Definition queryStop : M status_t :=
  event EvQueryStop >> reply.

(** Modelled from the spec: [CameraQemuClient::queryStart] is not among the
    sources; "start(pixfmt, width, height) asks the host source to begin
    producing frames in the given pixel format". *)
Definition queryStart (pixFmt w h : Z) : M status_t :=
  event (EvQueryStart pixFmt w h) >> reply.

(** Modelled from the spec: [CameraQemuClient::queryFrame] is not among the
    sources; "fetchFrame(yuvBuf, rgbaBuf, yuvSize, rgbaSize, ...)": the
    frame goes to the buffer that is not null, and a failed fetch leaves
    the output buffer unmodified. *)
Definition queryFrame (vframe pframe : ptr) (vframeSize pframeSize : Z) : M status_t :=
  event (EvQueryFrame vframe pframe vframeSize pframeSize) >>
  (fun w =>
     let frame := payloads (host w) (queries (host w)) in
     (let* res := reply in
      if res =? NO_ERROR
      then deliver vframe vframeSize frame >> (deliver pframe pframeSize frame >> ret res)
      else ret res) w).

(** [systemTime()] reads the monotonic clock. *)
Definition systemTime : M Z :=
  fun w => let t := clock (host w) (ticks (host w)) in
           (t, emit (EvSystemTime t) (set_host (next_tick (host w)) w)).

(** [new uint8_t[n]]: a region of [n] indeterminate bytes at an address that
    is neither null nor in use. *)
Definition new_uint8 (n : Z) : M ptr :=
  fun w => let p := fresh (dom (heap w) ∪ {[nullptr]}) in
           (p, set_heap (<[p := replicate (Z.to_nat n) Undef]> (heap w)) w).

(** [v->push_back(b)] on the vector at [v]. *)
Definition push_back (v : ptr) (b : StreamBuffer) : M unit :=
  fun w => (tt, set_vectors (alter (fun bs => bs ++ [b]) v (vectors w)) w).

(** ** Construction and the control surface *)

(** [QemuSensor::QemuSensor]; the constructor does not assign [mState],
    whose initial value [st0] comes from the class declaration.  The three
    fields private to the sensor thread are assigned by [readyToRun] before
    the first iteration; they are given here the values it assigns. *)
Definition QemuSensor_new (st0 : EmulatedCameraDeviceState) (width height : Z) : QemuSensor :=
  {| mWidth := width; mHeight := height;
     mLastRequestWidth := u32 (-1); mLastRequestHeight := u32 (-1);
     mState := st0;
     mGotVSync := false;
     mFrameDuration := fst kFrameDurationRange;
     mNextBuffers := nullptr;
     mFrameNumber := 0;
     mListener := nullptr;
     mCapturedBuffers := nullptr;
     mCaptureTime := 0;
     mStartupTime := 0;
     mNextCaptureTime := 0;
     mNextCapturedBuffers := nullptr |}.

Definition setFrameDuration (ns : Z) : M unit :=
  event (EvLock mControlMutex) >>
  (modify (with_mFrameDuration ns) >>
   event (EvUnlock mControlMutex)).

Definition setDestinationBuffers (buffers : ptr) : M unit :=
  event (EvLock mControlMutex) >>
  (modify (with_mNextBuffers buffers) >>
   event (EvUnlock mControlMutex)).

Definition setFrameNumber (frameNumber : Z) : M unit :=
  event (EvLock mControlMutex) >>
  (modify (with_mFrameNumber frameNumber) >>
   event (EvUnlock mControlMutex)).

Definition setQemuSensorListener (listener : ptr) : M unit :=
  event (EvLock mControlMutex) >>
  (modify (with_mListener listener) >>
   event (EvUnlock mControlMutex)).

(** [mVSync.waitRelative]: the wait returns [res]; [got] is the flag as the
    sensor thread left it meanwhile. *)
Definition waitForVSync (reltime : Z) (res : status_t) (got : bool) : M bool :=
  event (EvLock mControlMutex) >>
  (modify (with_mGotVSync false) >>
   (event (EvWait mVSync) >>
    (modify (with_mGotVSync got) >>
     (if negb (res =? OK) && negb (res =? TIMED_OUT)
      then event (EvLog LOG_ERROR "%s: Error waiting for VSync signal: %d") >>
           (event (EvUnlock mControlMutex) >> ret false)
      else let* s := getSensor in
           event (EvUnlock mControlMutex) >> ret (mGotVSync s))))).

(** A wait on a condition of the readout slot: the mutex is released, the
    other threads leave [wake] in the slot, the mutex is taken again. *)
Definition waitReadout (c : Condition) (wake : Wakeup) : M unit :=
  event (EvWait c) >> modify (with_readout (wslot wake) (wtime wake)).

(** [waitForNewFrame(reltime, captureTime)]: [res] and [wake] are the result
    of [mReadoutAvailable.waitRelative] should the function reach it;
    [captureTime] is the value [*captureTime] holds at the call, and the
    result carries the value it holds at the return. *)
Definition waitForNewFrame (reltime : Z) (captureTime : Z)
    (res : status_t) (wake : Wakeup) : M (bool * Z) :=
  event (EvLock mReadoutMutex) >>
  let* s := getSensor in
  let* go :=
    (if mCapturedBuffers s =? nullptr then
       waitReadout mReadoutAvailable wake >>
       (if res =? TIMED_OUT then ret false
        else let* s' := getSensor in
             if negb (res =? OK) || (mCapturedBuffers s' =? nullptr)
             then event (EvLog LOG_ERROR "Error waiting for sensor readout signal: %d") >>
                  ret false
             else ret true)
     else ret true) in
  if go : bool then
    event (EvSignal mReadoutComplete) >>
    let* s1 := getSensor in
    modify (with_mCapturedBuffers nullptr) >>
    (event (EvUnlock mReadoutMutex) >>
     ret (true, mCaptureTime s1))
  else
    event (EvUnlock mReadoutMutex) >> ret (false, captureTime).

Definition readyToRun : M status_t :=
  let* t := systemTime in
  modify (with_mStartupTime t) >>
  (modify (with_mNextCaptureTime 0) >>
   (modify (with_mNextCapturedBuffers nullptr) >>
    ret OK)).

(** ** Capture *)

(** The first half of [captureRGBA] (lines 342-385), repeated word for word
    in [captureNV21] (lines 410-453): restart the host camera when the
    requested size is not the latched one.  The result is [false] where the
    source returns from the capture function. *)
Definition restartOnNewSize (width height : Z) : M bool :=
  let* s := getSensor in
  if negb (width =? mLastRequestWidth s) || negb (height =? mLastRequestHeight s) then
    event (EvLog LOG_INFO
      "%s: Dimensions for the current request (%dx%d) differ from the previous request (%dx%d). Restarting camera") >>
    (when (negb (mLastRequestWidth s =? u32 (-1)) || negb (mLastRequestHeight s =? u32 (-1)))
       (let* res := queryStop in
        if res =? NO_ERROR
        then modify (with_mState ECDS_CONNECTED)
        else event (EvLog LOG_ERROR "%s: Unable to stop device '%s'")) >>
     let* res := queryStart V4L2_PIX_FMT_NV21 width height in
     if res =? NO_ERROR then
       modify (with_latch width height) >>
       (modify (with_mState ECDS_STARTED) >> ret true)
     else
       event (EvLog LOG_ERROR "%s: Unable to start device '%s' for %.4s[%dx%d] frames") >>
       ret false)
  else ret true.

Definition warnStride (width stride : Z) : M unit :=
  when (negb (width =? stride))
    (event (EvLog LOG_WARN "%s: expect stride (%d), actual stride (%d)")).

Definition captureRGBA (img : ptr) (width height stride : Z) : M unit :=
  let* started := restartOnNewSize width height in
  if started : bool then
    warnStride width stride >>
    let bufferSize := u32 (u32 (width * height) * 4) in
    let* _ := queryFrame nullptr img 0 bufferSize in
    ret tt
  else ret tt.

Definition captureRGB (img : ptr) (width height stride : Z) : M unit :=
  event (EvLog LOG_ERROR "%s: Not implemented").

Definition captureNV21 (img : ptr) (width height stride : Z) : M unit :=
  let* started := restartOnNewSize width height in
  if started : bool then
    warnStride width stride >>
    let bufferSize := u32 (u32 (width * height) * 12) / 8 in
    let* _ := queryFrame img nullptr bufferSize 0 in
    ret tt
  else ret tt.

(** The auxiliary buffer of a BLOB buffer [b], its bytes at [p]; [bAux] is
    declared without initialiser and [dataSpace] is never assigned. *)
Definition auxBuffer (b : StreamBuffer) (junk : Z) (p : ptr) : StreamBuffer :=
  {| streamId := 0;
     width := width b;
     height := height b;
     format := HAL_PIXEL_FORMAT_YCbCr_420_888;
     dataSpace := junk;
     stride := width b;
     buffer := nullptr;
     img := p |}.

(** The body of the loop of Stage 2 (lines 276-315) for the element [b] of
    the vector at [v]. *)
Definition captureBuffer (v : ptr) (b : StreamBuffer) : M unit :=
  if format b =? HAL_PIXEL_FORMAT_RGB_888 then
    captureRGB (img b) (width b) (height b) (stride b)
  else if format b =? HAL_PIXEL_FORMAT_RGBA_8888 then
    captureRGBA (img b) (width b) (height b) (stride b)
  else if format b =? HAL_PIXEL_FORMAT_BLOB then
    if dataSpace b =? HAL_DATASPACE_DEPTH then
      event (EvLog LOG_ERROR "%s: Depth clouds unsupported")
    else
      let* p := new_uint8 (u32 (u32 (width b * height b) * 3)) in
      fun w => push_back v (auxBuffer b (uninit (host w)) p) w
  else if format b =? HAL_PIXEL_FORMAT_YCbCr_420_888 then
    captureNV21 (img b) (width b) (height b) (stride b)
  else
    event (EvLog LOG_ERROR "%s: Unknown/unsupported format %x, no output").

(** [for (size_t i = 0; i < mNextCapturedBuffers->size(); ++i)]: the size is
    read again at every step, since the body may append.  [None] when the
    vector pointer is invalid or the fuel is used up. *)
Fixpoint captureLoop (fuel : nat) (i : nat) (v : ptr) (w : World) : option World :=
  match fuel with
  | O => None
  | S fuel' =>
      match vectors w !! v with
      | None => None
      | Some bs =>
          match bs !! i with
          | None => Some w
          | Some b => captureLoop fuel' (S i) v (exec (captureBuffer v b) w)
          end
      end
  end.

(** Each step either moves past a buffer that appends nothing or turns one
    BLOB buffer into a non-BLOB one at the end: twice the length, and one
    more step to see the end, is enough fuel. *)
Definition captureFuel (w : World) (v : ptr) : nat :=
  match vectors w !! v with
  | Some bs => S (2 * length bs)
  | None => O
  end.

(** ** The sensor thread *)

(** The control parameters [threadLoop] copies into its local variables. *)
Record Control := mkControl {
  frameDuration : Z;
  nextBuffers : ptr;
  frameNumber : Z;
  listener : ptr
}.

(** Stage 1 (lines 203-217): read in the latest control parameters. *)
Definition threadLoop_stage1 : M Control :=
  event (EvLock mControlMutex) >>
  let* s := getSensor in
  modify (with_mNextBuffers nullptr) >>
  (modify (with_mGotVSync true) >>
   (event (EvSignal mVSync) >>
    (event (EvUnlock mControlMutex) >>
     ret (mkControl (mFrameDuration s) (mNextBuffers s) (mFrameNumber s) (mListener s))))).

(** Stage 3 (lines 234-260): read out the latest captured image.  [wake] is
    what [mReadoutComplete.wait] finds in the slot when it returns. *)
Definition threadLoop_stage3 (wake : Wakeup) : M unit :=
  let* s := getSensor in
  let pending := negb (mNextCapturedBuffers s =? nullptr) in
  let capturedBuffers := if pending then mNextCapturedBuffers s else nullptr in
  let captureTime := if pending then mNextCaptureTime s else 0 in
  when (negb (capturedBuffers =? nullptr))
    (event (EvLock mReadoutMutex) >>
     let* r := getSensor in
     when (negb (mCapturedBuffers r =? nullptr))
       (waitReadout mReadoutComplete wake) >>
     (modify (with_mCapturedBuffers capturedBuffers) >>
      (modify (with_mCaptureTime captureTime) >>
       (event (EvSignal mReadoutAvailable) >>
        event (EvUnlock mReadoutMutex))))).

(** Stage 2 (lines 265-317): capture the new image. *)
Definition threadLoop_stage2 (c : Control) (simulatedTime : Z) (w : World) : option World :=
  let w1 := exec (modify (with_mNextCaptureTime simulatedTime) >>
                  modify (with_mNextCapturedBuffers (nextBuffers c))) w in
  let v := mNextCapturedBuffers (sensor w1) in
  if v =? nullptr then Some w1
  else
    let w2 := exec (when (negb (listener c =? nullptr))
                      (event (EvExposureStart (listener c) (frameNumber c)
                                (mNextCaptureTime (sensor w1))))) w1 in
    captureLoop (captureFuel w2 v) 0 v w2.

(** The vertical blanking interval (lines 320-335).  [nanosleep] is called
    again with the remaining time until it returns 0: one event stands for
    the whole interval slept. *)
Definition threadLoop_vblank (frameEndRealTime : Z) : M unit :=
  let* workDoneRealTime := systemTime in
  let timeAccuracy := 2000000 in
  when (workDoneRealTime <? s64 (frameEndRealTime - timeAccuracy))
    (event (EvNanosleep
              (Z.quot (s64 (frameEndRealTime - workDoneRealTime)) 1000000000)
              (Z.rem (s64 (frameEndRealTime - workDoneRealTime)) 1000000000))) >>
  let* endRealTime := systemTime in
  ret tt.

(** [QemuSensor::threadLoop]: one iteration of the sensor thread. *)
Definition threadLoop (wake : Wakeup) (w : World) : option (bool * World) :=
  let (c, w1) := threadLoop_stage1 w in
  let (startRealTime, w2) := systemTime w1 in
  let simulatedTime := startRealTime in
  let frameEndRealTime := s64 (startRealTime + frameDuration c) in
  let w3 := exec (threadLoop_stage3 wake) w2 in
  match threadLoop_stage2 c simulatedTime w3 with
  | None => None
  | Some w4 => Some (true, exec (threadLoop_vblank frameEndRealTime) w4)
  end.

(** ** Calls of the other threads *)

Inductive Call :=
| CallSetFrameDuration (ns : Z)
| CallSetDestinationBuffers (buffers : ptr)
| CallSetFrameNumber (n : Z)
| CallSetQemuSensorListener (l : ptr)
| CallWaitForVSync (reltime : Z) (res : status_t) (got : bool)
| CallWaitForNewFrame (reltime captureTime : Z) (res : status_t) (wake : Wakeup).

Definition perform (c : Call) (w : World) : World :=
  match c with
  | CallSetFrameDuration ns => exec (setFrameDuration ns) w
  | CallSetDestinationBuffers p => exec (setDestinationBuffers p) w
  | CallSetFrameNumber n => exec (setFrameNumber n) w
  | CallSetQemuSensorListener l => exec (setQemuSensorListener l) w
  | CallWaitForVSync reltime res got => exec (waitForVSync reltime res got) w
  | CallWaitForNewFrame reltime ct res wake => exec (waitForNewFrame reltime ct res wake) w
  end.

Definition performAll (cs : list Call) (w : World) : World :=
  fold_left (fun w c => perform c w) cs w.

Definition isSetDestinationBuffers (c : Call) : bool :=
  match c with
  | CallSetDestinationBuffers _ => true
  | _ => false
  end.

(** ** Schedules of iterations and calls *)

Inductive Step :=
| Iterate (wake : Wakeup)
| Foreign (c : Call).

Definition isIterate (st : Step) : bool :=
  match st with
  | Iterate _ => true
  | Foreign _ => false
  end.

Definition storesBuffers (st : Step) : bool :=
  match st with
  | Iterate _ => false
  | Foreign c => isSetDestinationBuffers c
  end.

Definition iterations (sched : list Step) : nat :=
  length (List.filter isIterate sched).

(** Run a schedule; the result lists, for each iteration, the vector it
    took for capture (its [mNextCapturedBuffers] when it returns). *)
Fixpoint run (sched : list Step) (w : World) : option (list ptr * World) :=
  match sched with
  | [] => Some ([], w)
  | Foreign c :: rest => run rest (perform c w)
  | Iterate wake :: rest =>
      match threadLoop wake w with
      | None => None
      | Some (_, w1) =>
          match run rest w1 with
          | None => None
          | Some (taken, w2) => Some (mNextCapturedBuffers (sensor w1) :: taken, w2)
          end
      end
  end.

(** ** Sample worlds *)

Definition host0 (status : status_t) : Host :=
  {| replies := fun _ => status;
     payloads := fun _ => [];
     queries := 0%nat;
     clock := fun k => 1000 + 40000000 * Z.of_nat k;
     ticks := 0%nat;
     uninit := 7 |}.

Definition world0 (status : status_t) (bs : Buffers) (l : ptr) : World :=
  {| sensor := with_mListener l
                 (with_mNextBuffers 64 (QemuSensor_new ECDS_CONNECTED 640 480));
     vectors := {[ 64 := bs ]};
     heap := ∅;
     host := host0 status;
     trace := [] |}.

Definition blob2x2 : StreamBuffer :=
  mkStreamBuffer 1 2 2 HAL_PIXEL_FORMAT_BLOB 0 2 0 0.

Definition depthBlob : StreamBuffer :=
  mkStreamBuffer 1 320 240 HAL_PIXEL_FORMAT_BLOB HAL_DATASPACE_DEPTH 320 0 0.

(** A world in which the consumer has not collected the set at 100, stamped
    5, while the sensor thread holds the set at 200, stamped 9, captured by
    its previous iteration. *)
Definition stalled : World :=
  set_sensor (fun s => with_mNextCapturedBuffers 200
                         (with_mNextCaptureTime 9 (with_readout 100 5 s)))
    (world0 0 [] 0).

(** ** Reading traces *)

Definition isUpstream (e : Event) : bool :=
  match e with
  | EvQueryStop | EvQueryStart _ _ _ | EvQueryFrame _ _ _ _ => true
  | _ => false
  end.

Definition isQueryFrame (e : Event) : bool :=
  match e with
  | EvQueryFrame _ _ _ _ => true
  | _ => false
  end.

Definition isExposureStart (e : Event) : bool :=
  match e with
  | EvExposureStart _ _ _ => true
  | _ => false
  end.

(** The queries sent to the host camera among the events [evs]. *)
Definition upstream (evs : list Event) : list Event := List.filter isUpstream evs.

(** Log lines and queries to the host camera: the events of a capture. *)
Definition isCaptureEvent (e : Event) : bool :=
  match e with
  | EvLog _ _ | EvQueryStop | EvQueryStart _ _ _ | EvQueryFrame _ _ _ _ => true
  | _ => false
  end.

Definition isPacingEvent (e : Event) : bool :=
  match e with
  | EvSystemTime _ | EvNanosleep _ _ => true
  | _ => false
  end.

(** ** The vocabulary of the statements *)

Definition inFrameDurationRange (ns : Z) : Prop :=
  fst kFrameDurationRange <= ns <= snd kFrameDurationRange.

Inductive CaptureKind := RGBA | NV21.

Definition capture (k : CaptureKind) : ptr -> Z -> Z -> Z -> M unit :=
  match k with
  | RGBA => captureRGBA
  | NV21 => captureNV21
  end.

(** The frame query each capture function ends with. *)
Definition frameQuery (k : CaptureKind) (img : ptr) (width height : Z) : Event :=
  match k with
  | RGBA => EvQueryFrame nullptr img 0 (u32 (u32 (width * height) * 4))
  | NV21 => EvQueryFrame img nullptr (u32 (u32 (width * height) * 12) / 8) 0
  end.

(** The request's size is not the latched one. *)
Definition latchDiffers (s : QemuSensor) (width height : Z) : bool :=
  negb (width =? mLastRequestWidth s) || negb (height =? mLastRequestHeight s).

(** The latch still holds the sentinel (-1, -1). *)
Definition latchIsSentinel (s : QemuSensor) : bool :=
  (mLastRequestWidth s =? u32 (-1)) && (mLastRequestHeight s =? u32 (-1)).

Definition latch (s : QemuSensor) : Z * Z :=
  (mLastRequestWidth s, mLastRequestHeight s).

(** The restart of the host camera that a capture of this size needs, if
    any, succeeds. *)
Definition restarted (w : World) (width height : Z) : bool :=
  negb (latchDiffers (sensor w) width height) ||
  (replies (host w)
     (if latchIsSentinel (sensor w) then queries (host w)
      else S (queries (host w))) =? NO_ERROR).

(** The fields of the sensor that the capture functions never assign:
    everything but the resolution latch and the device state. *)
Definition slots (s : QemuSensor) :=
  (mGotVSync s, mFrameDuration s, mNextBuffers s, mFrameNumber s, mListener s,
   (mCapturedBuffers s, mCaptureTime s),
   (mStartupTime s, mNextCaptureTime s, mNextCapturedBuffers s)).

Definition isBlob (b : StreamBuffer) : bool :=
  (format b =? HAL_PIXEL_FORMAT_BLOB) && negb (dataSpace b =? HAL_DATASPACE_DEPTH).

(** The non-depth BLOB buffers of a vector. *)
Definition blobs (bs : list StreamBuffer) : nat := length (List.filter isBlob bs).

(** An RGB_888 buffer, a depth BLOB, or a format that is none of the four
    the switch knows. *)
Definition misconfigured (b : StreamBuffer) : Prop :=
  format b = HAL_PIXEL_FORMAT_RGB_888 \/
  (format b = HAL_PIXEL_FORMAT_BLOB /\ dataSpace b = HAL_DATASPACE_DEPTH) \/
  (format b <> HAL_PIXEL_FORMAT_RGB_888 /\
   format b <> HAL_PIXEL_FORMAT_RGBA_8888 /\
   format b <> HAL_PIXEL_FORMAT_BLOB /\
   format b <> HAL_PIXEL_FORMAT_YCbCr_420_888).

(** The sensor may follow the pointer it finds in [mNextBuffers]. *)
Definition validNext (w : World) : Prop :=
  mNextBuffers (sensor w) = nullptr \/
  is_Some (vectors w !! mNextBuffers (sensor w)).

(** The first reading of the clock in an iteration started in [w]. *)
Definition startTime (w : World) : Z := clock (host w) (ticks (host w)).

(** The events of the readout handoff, from the sensor at the start of the
    iteration. *)
Definition handoffEvents (s : QemuSensor) : list Event :=
  if mNextCapturedBuffers s =? nullptr then []
  else EvLock mReadoutMutex ::
       (if mCapturedBuffers s =? nullptr then [] else [EvWait mReadoutComplete]) ++
       [EvSignal mReadoutAvailable; EvUnlock mReadoutMutex].

(** The handoff of an iteration that publishes the vector [prev] and finds
    the sensor [s] at its start. *)
Definition publishEvents (prev : ptr) (s : QemuSensor) : list Event :=
  if prev =? nullptr then []
  else EvLock mReadoutMutex ::
       (if mCapturedBuffers s =? nullptr then [] else [EvWait mReadoutComplete]) ++
       [EvSignal mReadoutAvailable; EvUnlock mReadoutMutex].

(** The listener notification of an iteration that samples the clock at [t]. *)
Definition exposureEvents (s : QemuSensor) (t : Z) : list Event :=
  if (mNextBuffers s =? nullptr) || (mListener s =? nullptr) then []
  else [EvExposureStart (mListener s) (mFrameNumber s) t].

(** The world after Stage 1, the reading of the clock and Stage 3. *)
Definition afterReadout (wake : Wakeup) (w : World) : World :=
  exec (threadLoop_stage3 wake) (snd (systemTime (snd (threadLoop_stage1 w)))).

(** A captured set is in the slot when [waitForNewFrame] is entered, or the
    wait on [mReadoutAvailable] returns [OK], before its deadline, and then
    finds one. *)
Definition frameAvailable (s : QemuSensor) (res : status_t) (wake : Wakeup) : Prop :=
  mCapturedBuffers s <> nullptr \/ (res = OK /\ wslot wake <> nullptr).

(** ** Start-up and shut-down *)

(** Modelled from the spec: [CameraQemuClient::connectClient] is not among
    the sources; "connect(descriptor_string) opens the underlying transport
    and performs a handshake; the core only cares about success".  The
    trace has no event for it. *)
Definition connectClient (connect_str : string) : M status_t := reply.

(** Modelled from the spec: [CameraQemuClient::queryConnect] is not among
    the sources; it is the handshake of "connect", of which "the core only
    cares about success". *)
Definition queryConnect : M status_t := reply.

(** [snprintf(connect_str, sizeof(connect_str), "name=%s", mDeviceName)]
    with [char connect_str[256]]: at most 255 characters are kept. *)
Definition connect_str (deviceName : string) : string :=
  String.substring 0 255 (String.append "name=" deviceName).

(** [QemuSensor::startUp]; [deviceName] is [mDeviceName] and [runRes] the
    status returned by [Thread::run]. *)
Definition startUp (deviceName : string) (runRes : status_t) : M status_t :=
  modify (with_mCapturedBuffers nullptr) >>
  (when (negb (runRes =? OK))
     (event (EvLog LOG_ERROR "Unable to start up sensor capture thread: %d")) >>
   let* res := connectClient (connect_str deviceName) in
   if negb (res =? NO_ERROR) then ret res
   else
     let* res := queryConnect in
     if res =? NO_ERROR then
       modify (with_mState ECDS_CONNECTED) >> ret res
     else
       event (EvLog LOG_ERROR "%s: Connection to device '%s' failed") >> ret res).

(** [QemuSensor::shutDown]; [exitRes] is the status returned by
    [Thread::requestExitAndWait]. *)
Definition shutDown (exitRes : status_t) : M status_t :=
  when (negb (exitRes =? OK))
    (event (EvLog LOG_ERROR "Unable to shut down sensor capture thread: %d")) >>
  let* res := queryStop in
  if res =? NO_ERROR then
    modify (with_mState ECDS_CONNECTED) >> ret res
  else
    event (EvLog LOG_ERROR "%s: Unable to stop device '%s'") >> ret res.

(** ** More vocabulary *)

(** What the sensor may send to the host camera: a start asks for NV21, and
    a frame query names one buffer, the other being null with size 0. *)
Definition wellFormedQuery (e : Event) : bool :=
  match e with
  | EvQueryStart pixFmt _ _ => pixFmt =? V4L2_PIX_FMT_NV21
  | EvQueryFrame vframe pframe vsize psize =>
      ((vframe =? nullptr) && (vsize =? 0)) || ((pframe =? nullptr) && (psize =? 0))
  | _ => true
  end.

(** [a] is the auxiliary buffer the loop appends for the BLOB buffer [b]. *)
Definition auxOf (b a : StreamBuffer) : Prop :=
  streamId a = 0 /\ width a = width b /\ height a = height b /\
  format a = HAL_PIXEL_FORMAT_YCbCr_420_888 /\ stride a = width b /\
  buffer a = nullptr /\ img a <> nullptr.

(** A camera started for 640x480 that accepts the stop and refuses the
    start for 1280x720. *)
Definition refusing : World :=
  set_host (mkHost (fun k => if (k =? 1)%nat then -1 else 0) (fun _ => [])
              0%nat (fun k => Z.of_nat k) 0%nat 7)
    (exec (capture NV21 10 640 480 640) (world0 0 [] 0)).

(** A log line of priority [LOG_WARN]. *)
Definition isWarning (e : Event) : bool :=
  match e with
  | EvLog LOG_WARN _ => true
  | _ => false
  end.

(** The warning of [captureRGBA] and [captureNV21] about the stride. *)
Definition strideWarning : Event :=
  EvLog LOG_WARN "%s: expect stride (%d), actual stride (%d)".

(** ** Lock discipline *)

Definition Mutex_eqb (m n : Mutex) : bool :=
  match m, n with
  | mControlMutex, mControlMutex | mReadoutMutex, mReadoutMutex => true
  | _, _ => false
  end.

(** The mutex each condition is used with: [mVSync] guards the control
    slot, the two readout conditions the readout slot. *)
Definition mutexOf (c : Condition) : Mutex :=
  match c with
  | mVSync => mControlMutex
  | mReadoutAvailable | mReadoutComplete => mReadoutMutex
  end.

(** One event of a thread that holds [held] ([None]: no mutex).  A mutex
    is taken only when none is held and released only by its holder; a
    condition is waited on and signalled under its mutex; queries to the
    host camera, the listener callback and [nanosleep] happen with no mutex
    held.  The result is the mutex held afterwards, or [None] when the
    event breaks these rules. *)
Definition lockStep (held : option Mutex) (e : Event) : option (option Mutex) :=
  match e with
  | EvLock m =>
      match held with
      | None => Some (Some m)
      | Some _ => None
      end
  | EvUnlock m =>
      match held with
      | Some n => if Mutex_eqb m n then Some None else None
      | None => None
      end
  | EvSignal c | EvWait c =>
      match held with
      | Some n => if Mutex_eqb (mutexOf c) n then Some held else None
      | None => None
      end
  | EvSystemTime _ | EvLog _ _ => Some held
  | EvNanosleep _ _ | EvExposureStart _ _ _
  | EvQueryStop | EvQueryStart _ _ _ | EvQueryFrame _ _ _ _ =>
      match held with
      | None => Some None
      | Some _ => None
      end
  end.

(** The events [evs] of a thread that holds [held] at their start. *)
Fixpoint lockRun (held : option Mutex) (evs : list Event) : option (option Mutex) :=
  match evs with
  | [] => Some held
  | e :: rest =>
      match lockStep held e with
      | Some held' => lockRun held' rest
      | None => None
      end
  end.

(** The events keep the lock discipline and end with no mutex held. *)
Definition disciplined (evs : list Event) : Prop := lockRun None evs = Some None.

(** Whether the wait of [waitForVSync] ended as it may: signalled or timed
    out. *)
Definition waitEnded (res : status_t) : bool := (res =? OK) || (res =? TIMED_OUT).

(** * Properties *)


(** ** Reading traces *)

Lemma emitted_app (w w' : World) (evs : list Event) :
  trace w' = trace w ++ evs -> emitted w w' = evs.
Proof.
  intros H. unfold emitted. rewrite H. apply drop_app_length.
Qed.

Lemma emitted_refl (w : World) : emitted w w = [].
Proof. apply emitted_app. now rewrite app_nil_r. Qed.

(** Unfold the monad down to worlds. *)
Ltac unfold_monad :=
  unfold exec, eval, bind, ret, when, event, modify, getSensor; simpl.

(** Name the components of a world, so that field updates compute. *)
Ltac open_world w :=
  let s := fresh "s" in
  let h := fresh "h" in
  destruct w as [s ? ? h ?]; destruct s; destruct h.

Ltac trace_norm :=
  repeat rewrite <- app_assoc; simpl.

(** ** Frame duration *)

(** C7 (as amended): [setFrameDuration ns] stores [ns] as it is, no clamp is
    applied; the stored frame period lies in [33331760, 300000000] when the
    sensor is constructed and after every call whose argument is in that
    range. *)
Theorem setFrameDuration_stores (ns : Z) (w : World)
    (st0 : EmulatedCameraDeviceState) (width height : Z) :
  mFrameDuration (sensor (exec (setFrameDuration ns) w)) = ns /\
  inFrameDurationRange (mFrameDuration (QemuSensor_new st0 width height)) /\
  (inFrameDurationRange ns ->
   inFrameDurationRange (mFrameDuration (sensor (exec (setFrameDuration ns) w)))).
Proof.
  open_world w. split; [reflexivity|]. split; [|intros H; exact H].
  unfold inFrameDurationRange. simpl. lia.
Qed.

Lemma setFrameDuration_stores_witness :
  inFrameDurationRange
    (mFrameDuration (sensor (exec (setFrameDuration 40000000) (world0 0 [] 0)))).
Proof.
  apply (setFrameDuration_stores 40000000 (world0 0 [] 0) ECDS_INITIAL 640 480).
  unfold inFrameDurationRange; simpl; lia.
Defined.

(** C7 fails as stated: after [setFrameDuration 0] the stored frame period
    is 0, outside [33331760, 300000000]. *)
Lemma setFrameDuration_not_clamped :
  ~ inFrameDurationRange
      (mFrameDuration (sensor (exec (setFrameDuration 0) (world0 0 [] 0)))).
Proof.
  unfold inFrameDurationRange; simpl; lia.
Qed.

(** ** The resolution latch *)

(** C1: a capture of an RGBA_8888 or YCbCr_420_888 buffer whose size
    differs from the latch calls stop exactly when the latch is not the
    sentinel, then start(NV21, width, height); when start succeeds the latch
    becomes (width, height), the state STARTED and the frame is fetched;
    when start fails the latch is unchanged, no frame is fetched, and the
    state is CONNECTED if a stop was issued and succeeded; when the size
    equals the latch neither stop nor start is called. *)
Theorem capture_resolution_latch (k : CaptureKind) (img : ptr)
    (width height stride : Z) (w : World) :
  let s := sensor w in
  let w' := exec (capture k img width height stride) w in
  let stopOk := replies (host w) (queries (host w)) =? NO_ERROR in
  let startOk :=
    replies (host w) (if latchIsSentinel s then queries (host w)
                      else S (queries (host w))) =? NO_ERROR in
  upstream (emitted w w') =
    (if latchDiffers s width height then
       (if latchIsSentinel s then [] else [EvQueryStop]) ++
       EvQueryStart V4L2_PIX_FMT_NV21 width height ::
       (if startOk then [frameQuery k img width height] else [])
     else [frameQuery k img width height]) /\
  latch (sensor w') =
    (if latchDiffers s width height && startOk then (width, height) else latch s) /\
  mState (sensor w') =
    (if latchDiffers s width height then
       if startOk then ECDS_STARTED
       else if latchIsSentinel s then mState s
       else if stopOk then ECDS_CONNECTED else mState s
     else mState s).
Proof.
  intros s w' stopOk startOk. subst s w' stopOk startOk.
  unfold latchDiffers, latchIsSentinel, latch.
  open_world w.
  match goal with
  | |- context [emitted ?w0 _] =>
      assert (Hout : forall evs w2, trace w2 = trace w0 ++ evs ->
                                    emitted w0 w2 = evs)
        by (intros evs w2 E; now apply emitted_app)
  end.
  simpl in *.
  destruct k; simpl;
    unfold captureRGBA, captureNV21, restartOnNewSize, warnStride,
      queryStop, queryStart, queryFrame, reply, deliver; unfold_monad;
    repeat match goal with
           | |- context [Z.eqb ?a ?b] => destruct (Z.eqb a b) eqn:?; simpl
           end;
    (split; [ erewrite Hout by (simpl; trace_norm; reflexivity); reflexivity
            | split; reflexivity ]).
Qed.

(** The size-change scenario: 640x480 then 1280x720, both NV21, on a host
    camera that accepts every query. *)
Example size_change_mid_stream :
  let w1 := exec (captureNV21 10 640 480 640) (world0 0 [] 0) in
  let w2 := exec (captureNV21 20 1280 720 1280) w1 in
  upstream (trace w2) =
    [EvQueryStart V4L2_PIX_FMT_NV21 640 480; EvQueryFrame 10 0 460800 0;
     EvQueryStop;
     EvQueryStart V4L2_PIX_FMT_NV21 1280 720; EvQueryFrame 20 0 1382400 0].
Proof. reflexivity. Qed.

(** ** What a capture leaves alone *)

Ltac unfold_capture :=
  unfold capture, captureRGB, captureRGBA, captureNV21, restartOnNewSize,
    warnStride, queryStop, queryStart, queryFrame, reply, deliver.

Ltac split_ifs :=
  repeat match goal with
         | |- context [if ?c then _ else _] => destruct c eqn:?; simpl
         end.

(** Decide the comparisons of a variable, each one once. *)
Ltac split_tests :=
  repeat match goal with
         | H : Z.eqb ?a ?b = _ |- context [Z.eqb ?a ?b] => rewrite H; simpl
         | |- context [Z.eqb ?a ?b] =>
             is_var a; destruct (Z.eqb a b) eqn:?; simpl
         end.

Ltac appended :=
  first [ eexists; split; [symmetry; apply app_nil_r | reflexivity]
        | eexists; split; [trace_norm; reflexivity | reflexivity] ].

Lemma capture_slots k img wd ht st w :
  slots (sensor (exec (capture k img wd ht st) w)) = slots (sensor w).
Proof.
  open_world w. destruct k; unfold_capture; unfold_monad; split_ifs; reflexivity.
Qed.

Lemma capture_vectors k img wd ht st w :
  vectors (exec (capture k img wd ht st) w) = vectors w.
Proof.
  open_world w. destruct k; unfold_capture; unfold_monad; split_ifs; reflexivity.
Qed.

Lemma capture_events k img wd ht st w :
  exists evs, trace (exec (capture k img wd ht st) w) = trace w ++ evs /\
              forallb isCaptureEvent evs = true.
Proof.
  open_world w. destruct k; unfold_capture; unfold_monad; split_ifs; appended.
Qed.

(** The four ways through the switch of the capture loop. *)
Lemma captureBuffer_cases v b :
  (format b = HAL_PIXEL_FORMAT_RGBA_8888 /\
   captureBuffer v b = capture RGBA (img b) (width b) (height b) (stride b)) \/
  (format b = HAL_PIXEL_FORMAT_YCbCr_420_888 /\
   captureBuffer v b = capture NV21 (img b) (width b) (height b) (stride b)) \/
  (isBlob b = true /\
   captureBuffer v b =
     (let* p := new_uint8 (u32 (u32 (width b * height b) * 3)) in
      fun w => push_back v (auxBuffer b (uninit (host w)) p) w)) \/
  (isBlob b = false /\
   format b <> HAL_PIXEL_FORMAT_RGBA_8888 /\
   format b <> HAL_PIXEL_FORMAT_YCbCr_420_888 /\
   exists fmt, captureBuffer v b = event (EvLog LOG_ERROR fmt)).
Proof.
  unfold captureBuffer, isBlob.
  destruct (Z.eqb_spec (format b) HAL_PIXEL_FORMAT_RGB_888) as [E3|N3].
  { right; right; right. rewrite E3. simpl. repeat split; try discriminate.
    eexists; reflexivity. }
  destruct (Z.eqb_spec (format b) HAL_PIXEL_FORMAT_RGBA_8888) as [E1|N1].
  { left. split; [exact E1 | reflexivity]. }
  destruct (Z.eqb_spec (format b) HAL_PIXEL_FORMAT_BLOB) as [E33|N33].
  { destruct (Z.eqb_spec (dataSpace b) HAL_DATASPACE_DEPTH) as [D|D]; simpl.
    - right; right; right. rewrite E33. repeat split; try discriminate.
      eexists; reflexivity.
    - right; right; left. split; reflexivity. }
  destruct (Z.eqb_spec (format b) HAL_PIXEL_FORMAT_YCbCr_420_888) as [E35|N35].
  { right; left. split; [exact E35 | reflexivity]. }
  right; right; right. simpl. repeat split; try assumption.
  eexists; reflexivity.
Qed.

Lemma captureBuffer_slots v b w :
  slots (sensor (exec (captureBuffer v b) w)) = slots (sensor w).
Proof.
  destruct (captureBuffer_cases v b)
    as [[_ E]|[[_ E]|[[_ E]|(_ & _ & _ & fmt & E)]]]; rewrite E.
  - apply capture_slots.
  - apply capture_slots.
  - open_world w. reflexivity.
  - open_world w. reflexivity.
Qed.

Lemma captureBuffer_events v b w :
  exists evs, trace (exec (captureBuffer v b) w) = trace w ++ evs /\
              forallb isCaptureEvent evs = true.
Proof.
  destruct (captureBuffer_cases v b)
    as [[_ E]|[[_ E]|[[_ E]|(_ & _ & _ & fmt & E)]]]; rewrite E.
  - apply capture_events.
  - apply capture_events.
  - exists []. open_world w. split; [symmetry; apply app_nil_r | reflexivity].
  - exists [EvLog LOG_ERROR fmt]. open_world w. split; reflexivity.
Qed.

(** The vector at [v] after the loop body ran on its element [b]. *)
Lemma captureBuffer_vectors v b w bs :
  vectors w !! v = Some bs ->
  exists aux,
    vectors (exec (captureBuffer v b) w) !! v =
      Some (if isBlob b then bs ++ [aux] else bs) /\
    isBlob aux = false.
Proof.
  intros Hv.
  destruct (captureBuffer_cases v b)
    as [[F E]|[[F E]|[[B E]|(B & _ & _ & fmt & E)]]]; rewrite E.
  - exists b. rewrite capture_vectors, Hv. unfold isBlob. rewrite F. simpl. auto.
  - exists b. rewrite capture_vectors, Hv. unfold isBlob. rewrite F. simpl. auto.
  - rewrite B. open_world w. simpl in Hv. eexists. split.
    + unfold exec, bind, new_uint8, push_back. simpl.
      rewrite lookup_alter_eq, Hv. reflexivity.
    + reflexivity.
  - rewrite B. exists b. open_world w. simpl in *. split; [exact Hv | exact B].
Qed.


(** ** The capture loop *)

Lemma blobs_le_length bs : (blobs bs <= length bs)%nat.
Proof. unfold blobs. apply List.filter_length_le. Qed.

Lemma blobs_app bs cs : blobs (bs ++ cs) = (blobs bs + blobs cs)%nat.
Proof. unfold blobs. rewrite List.filter_app. apply length_app. Qed.

(** The loop ends: from index [i] at most one step per remaining buffer,
    one more per remaining BLOB, and the step that finds the end. *)
Lemma captureLoop_terminates v fuel :
  forall i w bs,
    vectors w !! v = Some bs ->
    (i <= length bs)%nat ->
    (length bs - i + blobs (drop i bs) < fuel)%nat ->
    exists w', captureLoop fuel i v w = Some w'.
Proof.
  induction fuel as [|fuel IH]; intros i w bs Hv Hi Hf; [lia|].
  simpl. rewrite Hv.
  destruct (bs !! i) as [b|] eqn:Hb; [|eauto].
  destruct (captureBuffer_vectors v b w bs Hv) as (aux & Hv' & Haux).
  pose proof (lookup_lt_Some _ _ _ Hb) as Hlt.
  rewrite (drop_S _ _ _ Hb) in Hf.
  change (b :: drop (S i) bs) with ([b] ++ drop (S i) bs) in Hf.
  rewrite blobs_app in Hf. unfold blobs at 1 in Hf. simpl in Hf.
  eapply IH; [exact Hv'| |].
  - destruct (isBlob b); [rewrite length_app; simpl|]; lia.
  - destruct (isBlob b); simpl in Hf.
    + rewrite drop_app_le by lia. rewrite blobs_app, length_app.
      unfold blobs at 2. simpl. rewrite Haux. simpl. lia.
    + lia.
Qed.

Lemma captureLoop_total v w bs :
  vectors w !! v = Some bs ->
  exists w', captureLoop (captureFuel w v) 0 v w = Some w'.
Proof.
  intros Hv. apply (captureLoop_terminates v _ 0%nat w bs Hv); [lia|].
  unfold captureFuel. rewrite Hv. rewrite drop_0.
  pose proof (blobs_le_length bs). lia.
Qed.

(** The loop only logs and queries the host camera, and assigns no field of
    the sensor but the latch and the device state. *)
Lemma captureLoop_inv v fuel :
  forall i w w',
    captureLoop fuel i v w = Some w' ->
    slots (sensor w') = slots (sensor w) /\
    exists evs, trace w' = trace w ++ evs /\ forallb isCaptureEvent evs = true.
Proof.
  induction fuel as [|fuel IH]; intros i w w' H; [discriminate|].
  simpl in H.
  destruct (vectors w !! v) as [bs|]; [|discriminate].
  destruct (bs !! i) as [b|].
  - apply IH in H. destruct H as (Hs & evs & Ht & He).
    destruct (captureBuffer_events v b w) as (evs0 & Ht0 & He0).
    split.
    + rewrite Hs. apply captureBuffer_slots.
    + exists (evs0 ++ evs). split.
      * rewrite Ht, Ht0. now rewrite app_assoc.
      * rewrite forallb_app, He0, He. reflexivity.
  - inversion H; subst. split; [reflexivity|].
    exists []. split; [symmetry; apply app_nil_r | reflexivity].
Qed.

(** ** The shape of one iteration *)


Lemma afterReadout_spec wake w :
  let s := sensor w in
  let w3 := afterReadout wake w in
  trace w3 = trace w ++
    [EvLock mControlMutex; EvSignal mVSync; EvUnlock mControlMutex;
     EvSystemTime (startTime w)] ++ handoffEvents s /\
  sensor w3 =
    (if mNextCapturedBuffers s =? nullptr then fun x => x
     else with_readout (mNextCapturedBuffers s) (mNextCaptureTime s))
      (with_mGotVSync true (with_mNextBuffers nullptr s)) /\
  vectors w3 = vectors w /\ heap w3 = heap w /\ host w3 = next_tick (host w).
Proof.
  open_world w.
  unfold afterReadout, threadLoop_stage3, threadLoop_stage1, systemTime,
    waitReadout, handoffEvents, startTime.
  unfold_monad. split_tests; repeat split; trace_norm; reflexivity.
Qed.

Lemma threadLoop_unfold wake w :
  threadLoop wake w =
    match threadLoop_stage2 (eval threadLoop_stage1 w) (startTime w)
            (afterReadout wake w) with
    | None => None
    | Some w4 =>
        Some (true,
              exec (threadLoop_vblank
                      (s64 (startTime w + mFrameDuration (sensor w)))) w4)
    end.
Proof. open_world w. reflexivity. Qed.

Lemma vblank_spec fe w :
  let w' := exec (threadLoop_vblank fe) w in
  sensor w' = sensor w /\ vectors w' = vectors w /\ heap w' = heap w /\
  exists evs, trace w' = trace w ++ evs /\ forallb isPacingEvent evs = true.
Proof.
  open_world w. unfold threadLoop_vblank, systemTime. unfold_monad. split_ifs;
    repeat split; eexists; (split; [trace_norm; reflexivity | reflexivity]).
Qed.

Lemma stage2_spec c t w3 :
  nextBuffers c = nullptr \/ is_Some (vectors w3 !! nextBuffers c) ->
  exists w4 captures,
    threadLoop_stage2 c t w3 = Some w4 /\
    trace w4 = trace w3 ++
      (if (nextBuffers c =? nullptr) || (listener c =? nullptr) then []
       else [EvExposureStart (listener c) (frameNumber c) t]) ++ captures /\
    forallb isCaptureEvent captures = true /\
    slots (sensor w4) =
      slots (with_mNextCapturedBuffers (nextBuffers c)
               (with_mNextCaptureTime t (sensor w3))) /\
    (nextBuffers c = nullptr ->
     captures = [] /\ vectors w4 = vectors w3 /\ heap w4 = heap w3 /\
     host w4 = host w3 /\
     sensor w4 = with_mNextCapturedBuffers nullptr
                   (with_mNextCaptureTime t (sensor w3))).
Proof.
  intros Hvalid. destruct c as [fd nb fn l]. open_world w3.
  simpl in Hvalid |- *. unfold threadLoop_stage2. unfold_monad.
  destruct (Z.eqb_spec nb nullptr) as [E|E]; simpl.
  - eexists; exists []. rewrite E. repeat split; try reflexivity.
    simpl. now rewrite app_nil_r.
  - destruct Hvalid as [Hn|[bs Hbs]]; [contradiction|].
    match goal with
    | |- context [captureLoop ?f 0 ?v ?w2] =>
        destruct (captureLoop_total v w2 bs) as [w4 Hw4];
          [destruct (l =? nullptr); exact Hbs|]
    end.
    exists w4. apply captureLoop_inv in Hw4 as Hinv.
    destruct Hinv as (Hs & evs & Ht & He).
    exists evs. split; [exact Hw4|].
    split; [|split; [exact He|split; [|intros; contradiction]]].
    + rewrite Ht. destruct (l =? nullptr); simpl.
      * reflexivity.
      * trace_norm. reflexivity.
    + rewrite Hs. destruct (l =? nullptr); reflexivity.
Qed.

Lemma slots_fields s gv fd nb fn l rd su nct ncb :
  slots s = (gv, fd, nb, fn, l, rd, (su, nct, ncb)) ->
  mGotVSync s = gv /\ mFrameDuration s = fd /\ mNextBuffers s = nb /\
  mFrameNumber s = fn /\ mListener s = l /\
  (mCapturedBuffers s, mCaptureTime s) = rd /\
  mStartupTime s = su /\ mNextCaptureTime s = nct /\
  mNextCapturedBuffers s = ncb.
Proof.
  unfold slots. intros H. injection H. intros. subst. repeat split.
Qed.

Lemma stage1_control w :
  eval threadLoop_stage1 w =
    mkControl (mFrameDuration (sensor w)) (mNextBuffers (sensor w))
      (mFrameNumber (sensor w)) (mListener (sensor w)).
Proof. open_world w. reflexivity. Qed.

(** One iteration from a world whose [mNextBuffers] can be followed: it
    returns [true]; its events are those of Stage 1, the reading of the
    clock, the readout handoff, the listener notification, the captures and
    the pacing, in this order; and the fields of the sensor are as stated. *)
Lemma threadLoop_shape wake w :
  validNext w ->
  let s := sensor w in
  let t := startTime w in
  exists w' captures pacing,
    threadLoop wake w = Some (true, w') /\
    trace w' = trace w ++
      [EvLock mControlMutex; EvSignal mVSync; EvUnlock mControlMutex;
       EvSystemTime t] ++
      handoffEvents s ++ exposureEvents s t ++ captures ++ pacing /\
    forallb isCaptureEvent captures = true /\
    forallb isPacingEvent pacing = true /\
    slots (sensor w') =
      (true, mFrameDuration s, nullptr, mFrameNumber s, mListener s,
       (if mNextCapturedBuffers s =? nullptr
        then (mCapturedBuffers s, mCaptureTime s)
        else (mNextCapturedBuffers s, mNextCaptureTime s)),
       (mStartupTime s, t, mNextBuffers s)) /\
    (mNextBuffers s = nullptr ->
     captures = [] /\ vectors w' = vectors w /\ heap w' = heap w /\
     latch (sensor w') = latch s /\ mState (sensor w') = mState s).
Proof.
  intros Hvalid s t. subst s t.
  rewrite threadLoop_unfold.
  destruct (afterReadout_spec wake w) as (Ht & Hs & Hv & Hh & Hho).
  pose proof (stage1_control w) as Hc.
  set (c := eval threadLoop_stage1 w) in *.
  destruct (stage2_spec c (startTime w) (afterReadout wake w))
    as (w4 & captures & H2 & Ht4 & Hcap & Hs4 & Hnull).
  { rewrite Hc, Hv. exact Hvalid. }
  rewrite H2.
  destruct (vblank_spec (s64 (startTime w + mFrameDuration (sensor w))) w4)
    as (Hs5 & Hv5 & Hh5 & pacing & Ht5 & Hpace).
  eexists; exists captures, pacing.
  split; [reflexivity|].
  split; [|split; [exact Hcap|split; [exact Hpace|split]]].
  - rewrite Ht5, Ht4, Ht, Hc. unfold exposureEvents. simpl.
    repeat rewrite <- app_assoc. reflexivity.
  - rewrite Hs5, Hs4, Hs, Hc. simpl.
    destruct (sensor w); simpl.
    destruct (_ =? nullptr); reflexivity.
  - intros Hn. rewrite Hc in Hnull. specialize (Hnull Hn).
    destruct Hnull as (-> & Hv4 & Hh4 & _ & Hs4').
    rewrite Hs5, Hv5, Hh5, Hv4, Hh4, Hs4', Hs, Hv, Hh.
    destruct (sensor w); simpl.
    repeat split; destruct (_ =? nullptr); reflexivity.
Qed.


(** ** Schedules of iterations and calls *)

Ltac unfold_calls :=
  unfold perform, setFrameDuration, setDestinationBuffers, setFrameNumber,
    setQemuSensorListener, waitForVSync, waitForNewFrame, waitReadout.

(** No call of the control surface assigns the fields private to the sensor
    thread, or touches the vectors. *)
Lemma perform_private c w :
  mNextCapturedBuffers (sensor (perform c w)) = mNextCapturedBuffers (sensor w) /\
  mNextCaptureTime (sensor (perform c w)) = mNextCaptureTime (sensor w) /\
  vectors (perform c w) = vectors w.
Proof.
  open_world w. destruct c; unfold_calls; unfold_monad; split_ifs; repeat split.
Qed.

Lemma performAll_private cs :
  forall w,
    mNextCapturedBuffers (sensor (performAll cs w)) = mNextCapturedBuffers (sensor w) /\
    mNextCaptureTime (sensor (performAll cs w)) = mNextCaptureTime (sensor w) /\
    vectors (performAll cs w) = vectors w.
Proof.
  induction cs as [|c cs IH]; intros w; simpl; [repeat split|].
  destruct (IH (perform c w)) as (H1 & H2 & H3).
  destruct (perform_private c w) as (P1 & P2 & P3).
  unfold performAll in *. simpl. rewrite H1, H2, H3. auto.
Qed.

(** Only [setDestinationBuffers] assigns [mNextBuffers]. *)
Lemma perform_mNextBuffers c w :
  isSetDestinationBuffers c = false ->
  mNextBuffers (sensor (perform c w)) = mNextBuffers (sensor w).
Proof.
  open_world w.
  destruct c; try discriminate; intros _; unfold_calls; unfold_monad; split_ifs;
    reflexivity.
Qed.

Lemma performAll_mNextBuffers cs :
  forall w,
    forallb (fun c => negb (isSetDestinationBuffers c)) cs = true ->
    mNextBuffers (sensor (performAll cs w)) = mNextBuffers (sensor w).
Proof.
  induction cs as [|c cs IH]; intros w H; [reflexivity|].
  cbn [forallb] in H. apply andb_prop in H. destruct H as [Hc H].
  apply negb_true_iff in Hc.
  change (performAll (c :: cs) w) with (performAll cs (perform c w)).
  rewrite (IH _ H). now apply perform_mNextBuffers.
Qed.

(** Calls at the head of a schedule are performed one after the other. *)
Lemma run_foreign cs rest :
  forall w, run (map Foreign cs ++ rest) w = run rest (performAll cs w).
Proof.
  induction cs as [|c cs IH]; intros w; [reflexivity|].
  cbn [map app run]. apply IH.
Qed.

(** With an empty control slot and no call that fills it, every iteration
    of a schedule takes the null vector. *)
Lemma run_idle sched :
  forall w,
    mNextBuffers (sensor w) = nullptr ->
    forallb (fun st => negb (storesBuffers st)) sched = true ->
    exists w', run sched w = Some (replicate (iterations sched) nullptr, w').
Proof.
  induction sched as [|st sched IH]; intros w Hn Hs; cbn [run].
  - eauto.
  - cbn [forallb] in Hs. apply andb_prop in Hs. destruct Hs as [Hst Hs].
    destruct st as [wake|c].
    + destruct (threadLoop_shape wake w (or_introl Hn))
        as (w1 & cap & pac & Hrun & _ & _ & _ & Hslots & _).
      rewrite Hrun.
      apply slots_fields in Hslots as (_ & _ & Hnb & _ & _ & _ & _ & _ & Hncb).
      destruct (IH w1 Hnb Hs) as [w2 Hw2]. rewrite Hw2.
      exists w2. unfold iterations. simpl. rewrite Hncb, Hn. reflexivity.
    + apply negb_true_iff in Hst. simpl in Hst.
      apply IH; [|exact Hs]. now rewrite perform_mNextBuffers.
Qed.

(** ** The control snapshot *)

(** C4: Stage 1, between taking and releasing the control mutex, copies
    the frame duration, the frame number and the listener, takes the
    [mNextBuffers] pointer and leaves null in its place, sets [mGotVSync]
    and signals [mVSync]; every iteration begins with it and ends with a
    null [mNextBuffers]; hence a pointer stored by [setDestinationBuffers]
    is taken by the first iteration that follows and by no later one,
    whatever calls other than [setDestinationBuffers] come in between. *)
Theorem control_snapshot_consumed_once (p : ptr) (wake : Wakeup)
    (calls : list Call) (sched : list Step) (w : World) :
  (let s := sensor w in
   let c := eval threadLoop_stage1 w in
   let w1 := exec threadLoop_stage1 w in
   c = mkControl (mFrameDuration s) (mNextBuffers s) (mFrameNumber s) (mListener s) /\
   mNextBuffers (sensor w1) = nullptr /\
   mGotVSync (sensor w1) = true /\
   emitted w w1 = [EvLock mControlMutex; EvSignal mVSync; EvUnlock mControlMutex]) /\
  (validNext w ->
   exists w' rest,
     threadLoop wake w = Some (true, w') /\
     emitted w w' =
       [EvLock mControlMutex; EvSignal mVSync; EvUnlock mControlMutex] ++ rest /\
     mNextBuffers (sensor w') = nullptr /\
     mNextCapturedBuffers (sensor w') = mNextBuffers (sensor w)) /\
  (p = nullptr \/ is_Some (vectors w !! p) ->
   forallb (fun c => negb (isSetDestinationBuffers c)) calls = true ->
   forallb (fun st => negb (storesBuffers st)) sched = true ->
   exists w',
     run (map Foreign calls ++ Iterate wake :: sched)
         (exec (setDestinationBuffers p) w) =
       Some (p :: replicate (iterations sched) nullptr, w')).
Proof.
  split; [|split].
  - open_world w. repeat split. apply emitted_app. simpl. trace_norm.
    reflexivity.
  - intros Hv.
    destruct (threadLoop_shape wake w Hv)
      as (w1 & cap & pac & Hrun & Ht & _ & _ & Hslots & _).
    apply slots_fields in Hslots as (_ & _ & Hnb & _ & _ & _ & _ & _ & Hncb).
    exists w1. eexists. split; [exact Hrun|]. split; [|split; assumption].
    apply emitted_app. rewrite Ht. reflexivity.
  - intros Hp Hc Hs. rewrite run_foreign. cbn [run].
    set (w0 := performAll calls (exec (setDestinationBuffers p) w)).
    assert (Hp0 : mNextBuffers (sensor w0) = p).
    { subst w0. rewrite (performAll_mNextBuffers _ _ Hc).
      open_world w. reflexivity. }
    assert (Hv : validNext w0).
    { unfold validNext. rewrite Hp0. subst w0.
      destruct (performAll_private calls (exec (setDestinationBuffers p) w))
        as (_ & _ & ->).
      open_world w. exact Hp. }
    destruct (threadLoop_shape wake w0 Hv)
      as (w1 & cap & pac & Hrun & _ & _ & _ & Hslots & _).
    rewrite Hrun.
    apply slots_fields in Hslots as (_ & _ & Hnb & _ & _ & _ & _ & _ & Hncb).
    destruct (run_idle sched w1 Hnb Hs) as [w2 Hw2].
    rewrite Hw2, Hncb, Hp0. exists w2. reflexivity.
Qed.

Lemma control_snapshot_consumed_once_witness :
  (exists w' rest,
     threadLoop (mkWakeup 0 0) (world0 0 [blob2x2] 0) = Some (true, w') /\
     emitted (world0 0 [blob2x2] 0) w' =
       [EvLock mControlMutex; EvSignal mVSync; EvUnlock mControlMutex] ++ rest /\
     mNextBuffers (sensor w') = nullptr /\
     mNextCapturedBuffers (sensor w') = 64) /\
  exists w',
    run [Foreign (CallSetFrameDuration 40000000);
         Iterate (mkWakeup 0 0); Foreign (CallSetFrameNumber 2);
         Iterate (mkWakeup 0 0); Iterate (mkWakeup 0 0)]
        (exec (setDestinationBuffers 64) (world0 0 [blob2x2] 0)) =
      Some ([64; nullptr; nullptr], w').
Proof.
  destruct (control_snapshot_consumed_once 64 (mkWakeup 0 0)
              [CallSetFrameDuration 40000000]
              [Foreign (CallSetFrameNumber 2); Iterate (mkWakeup 0 0);
               Iterate (mkWakeup 0 0)] (world0 0 [blob2x2] 0))
    as (_ & Hiter & Hsched).
  split.
  - apply Hiter. right. vm_compute. eexists. reflexivity.
  - apply Hsched.
    + right. vm_compute. eexists. reflexivity.
    + reflexivity.
    + reflexivity.
Defined.

(** ** The readout slot *)

(** C6: [waitForNewFrame] returns true exactly when a captured set is in
    the slot or arrives before the deadline; it then writes the timestamp
    stored with that set into [*captureTime], leaves null in the slot and
    signals [mReadoutComplete]; when it returns false it has written neither
    the slot, which is as the wait found it (unchanged when no other thread
    wrote it meanwhile), nor [*captureTime], and has signalled nothing. *)
Theorem waitForNewFrame_spec (reltime captureTime : Z) (res : status_t)
    (wake : Wakeup) (w : World) :
  let s := sensor w in
  let r := waitForNewFrame reltime captureTime res wake w in
  let returned := fst (fst r) in
  let captureTime' := snd (fst r) in
  let w' := snd r in
  (returned = true <-> frameAvailable s res wake) /\
  (returned = true ->
   captureTime' = (if mCapturedBuffers s =? nullptr then wtime wake
                   else mCaptureTime s) /\
   mCapturedBuffers (sensor w') = nullptr /\
   emitted w w' =
     EvLock mReadoutMutex ::
     (if mCapturedBuffers s =? nullptr then [EvWait mReadoutAvailable] else []) ++
     [EvSignal mReadoutComplete; EvUnlock mReadoutMutex]) /\
  (returned = false ->
   captureTime' = captureTime /\
   sensor w' = with_readout (wslot wake) (wtime wake) s /\
   ~ In (EvSignal mReadoutComplete) (emitted w w') /\
   (wslot wake = mCapturedBuffers s -> wtime wake = mCaptureTime s ->
    sensor w' = s)).
Proof.
  intros s r returned captureTime' w'. subst s r returned captureTime' w'.
  open_world w.
  unfold frameAvailable, waitForNewFrame, waitReadout. unfold_monad.
  match goal with
  | |- context [Z.eqb ?cb nullptr] =>
      is_var cb; destruct (Z.eqb_spec cb nullptr) as [E|E]; simpl
  end.
  - destruct (Z.eqb_spec res TIMED_OUT) as [T|T]; simpl.
    + split; [|split].
      * split; [discriminate|]. intros [H|[H _]]; [contradiction|].
        rewrite H in T. discriminate.
      * discriminate.
      * intros _. repeat split.
        { erewrite emitted_app by (simpl; trace_norm; reflexivity).
          simpl. intros [H|[H|[H|[]]]]; discriminate. }
        intros H1 H2. simpl in H1, H2. rewrite H1, H2. reflexivity.
    + destruct (Z.eqb_spec res OK) as [O|O]; simpl.
      * destruct (Z.eqb_spec (wslot wake) nullptr) as [N|N]; simpl.
        -- split; [|split].
           ++ split; [discriminate|]. intros [H|[_ H]]; contradiction.
           ++ discriminate.
           ++ intros _. repeat split.
              { erewrite emitted_app by (simpl; trace_norm; reflexivity).
                simpl. intros [H|[H|[H|[H|[]]]]]; discriminate. }
              intros H1 H2. simpl in H1, H2. rewrite H1, H2. reflexivity.
        -- split; [|split].
           ++ split; [|reflexivity]. intros _. right. auto.
           ++ intros _. repeat split.
              erewrite emitted_app by (simpl; trace_norm; reflexivity).
              reflexivity.
           ++ discriminate.
      * split; [|split].
        -- split; [discriminate|]. intros [H|[H _]]; contradiction.
        -- discriminate.
        -- intros _. repeat split.
           { erewrite emitted_app by (simpl; trace_norm; reflexivity).
             simpl. intros [H|[H|[H|[H|[]]]]]; discriminate. }
           intros H1 H2. simpl in H1, H2. rewrite H1, H2. reflexivity.
  - split; [|split].
    + split; [|reflexivity]. intros _. left. exact E.
    + intros _. repeat split.
      erewrite emitted_app by (simpl; trace_norm; reflexivity).
      reflexivity.
    + discriminate.
Qed.

(** A consumer that finds nothing, waits, and is woken by the publication
    of the vector 64 stamped 1000; and one whose wait times out. *)
Lemma waitForNewFrame_spec_witness :
  fst (waitForNewFrame 66000000 0 OK (mkWakeup 64 1000) (world0 0 [] 0)) =
    (true, 1000) /\
  fst (waitForNewFrame 66000000 7 TIMED_OUT (mkWakeup 0 0) (world0 0 [] 0)) =
    (false, 7).
Proof.
  split.
  - destruct (waitForNewFrame_spec 66000000 0 OK (mkWakeup 64 1000)
                (world0 0 [] 0)) as ([_ H] & Ht & _).
    assert (R : fst (fst (waitForNewFrame 66000000 0 OK (mkWakeup 64 1000)
                            (world0 0 [] 0))) = true)
      by (apply H; right; split; [reflexivity | discriminate]).
    destruct (Ht R) as (Hct & _). clear - R Hct.
    destruct (fst (waitForNewFrame 66000000 0 OK (mkWakeup 64 1000)
                     (world0 0 [] 0))) as [r c].
    simpl in *. now rewrite R, Hct.
  - destruct (waitForNewFrame_spec 66000000 7 TIMED_OUT (mkWakeup 0 0)
                (world0 0 [] 0)) as (_ & _ & Hf).
    assert (R : fst (fst (waitForNewFrame 66000000 7 TIMED_OUT (mkWakeup 0 0)
                            (world0 0 [] 0))) = false) by reflexivity.
    destruct (Hf R) as (Hct & _). clear - R Hct.
    destruct (fst (waitForNewFrame 66000000 7 TIMED_OUT (mkWakeup 0 0)
                     (world0 0 [] 0))) as [r c].
    simpl in *. now rewrite R, Hct.
Defined.

(** C3, the behaviour of the code: Stage 3 tests the slot once; when the
    slot is full it waits once on [mReadoutComplete], and whatever the wait
    finds, also the same unread set, it stores the new set over it. *)
Theorem readout_handoff_waits_once (wake : Wakeup) (w : World) :
  let s := sensor w in
  let w' := exec (threadLoop_stage3 wake) w in
  mNextCapturedBuffers s <> nullptr ->
  mCapturedBuffers s <> nullptr ->
  emitted w w' =
    [EvLock mReadoutMutex; EvWait mReadoutComplete;
     EvSignal mReadoutAvailable; EvUnlock mReadoutMutex] /\
  mCapturedBuffers (sensor w') = mNextCapturedBuffers s /\
  mCaptureTime (sensor w') = mNextCaptureTime s.
Proof.
  intros s w' Hp Hf. subst s w'.
  open_world w. simpl in Hp, Hf.
  unfold threadLoop_stage3, waitReadout. unfold_monad.
  apply Z.eqb_neq in Hp. apply Z.eqb_neq in Hf.
  rewrite Hp. simpl. rewrite Hp. simpl. rewrite Hf. simpl.
  repeat split. apply emitted_app. simpl. trace_norm. reflexivity.
Qed.

(** The wait returns although the consumer has not collected the set at
    100 (a spurious wake-up): the set at 200 replaces it. *)
Lemma readout_handoff_waits_once_witness :
  mCapturedBuffers (sensor stalled) = 100 /\
  mCapturedBuffers (sensor (exec (threadLoop_stage3 (mkWakeup 100 5)) stalled)) = 200.
Proof.
  split; [reflexivity|].
  apply (readout_handoff_waits_once (mkWakeup 100 5) stalled); discriminate.
Defined.

(** ** The one-frame pipeline *)

(** C5: take two consecutive iterations, with any calls of other threads in
    between.  The events of each are, in this order: the VSync signal of
    Stage 1, the reading of the clock, the handoff that signals
    [mReadoutAvailable], the EXPOSURE_START notification, then captures and
    pacing, which signal nothing.  The first iteration keeps the vector it
    captured in [mNextCapturedBuffers]; the handoff of the second is the one
    that stores this vector, with the first iteration's timestamp, in the
    readout slot. *)
Theorem pipeline_order (wake1 wake2 : Wakeup) (calls : list Call) (w0 : World) :
  validNext w0 ->
  exists w1 captures1 pacing1,
    threadLoop wake1 w0 = Some (true, w1) /\
    emitted w0 w1 =
      [EvLock mControlMutex; EvSignal mVSync; EvUnlock mControlMutex;
       EvSystemTime (startTime w0)] ++
      handoffEvents (sensor w0) ++
      exposureEvents (sensor w0) (startTime w0) ++ captures1 ++ pacing1 /\
    forallb isCaptureEvent captures1 = true /\
    forallb isPacingEvent pacing1 = true /\
    mNextCapturedBuffers (sensor w1) = mNextBuffers (sensor w0) /\
    (mCapturedBuffers (sensor w1), mCaptureTime (sensor w1)) =
      (if mNextCapturedBuffers (sensor w0) =? nullptr
       then (mCapturedBuffers (sensor w0), mCaptureTime (sensor w0))
       else (mNextCapturedBuffers (sensor w0), mNextCaptureTime (sensor w0))) /\
    let wi := performAll calls w1 in
    (validNext wi ->
     exists w2 captures2 pacing2,
       threadLoop wake2 wi = Some (true, w2) /\
       emitted wi w2 =
         [EvLock mControlMutex; EvSignal mVSync; EvUnlock mControlMutex;
          EvSystemTime (startTime wi)] ++
         publishEvents (mNextBuffers (sensor w0)) (sensor wi) ++
         exposureEvents (sensor wi) (startTime wi) ++ captures2 ++ pacing2 /\
       forallb isCaptureEvent captures2 = true /\
       forallb isPacingEvent pacing2 = true /\
       (mNextBuffers (sensor w0) <> nullptr ->
        mCapturedBuffers (sensor w2) = mNextBuffers (sensor w0) /\
        mCaptureTime (sensor w2) = startTime w0)).
Proof.
  intros Hv0.
  destruct (threadLoop_shape wake1 w0 Hv0)
    as (w1 & cap1 & pac1 & Hrun1 & Ht1 & Hc1 & Hp1 & Hs1 & _).
  apply slots_fields in Hs1 as (_ & _ & _ & _ & _ & Hrd1 & _ & Hnct1 & Hncb1).
  exists w1, cap1, pac1.
  split; [exact Hrun1|]. split; [apply emitted_app; exact Ht1|].
  split; [exact Hc1|]. split; [exact Hp1|]. split; [exact Hncb1|].
  split; [exact Hrd1|].
  intros wi Hvi.
  destruct (performAll_private calls w1) as (P1 & P2 & _).
  destruct (threadLoop_shape wake2 wi Hvi)
    as (w2 & cap2 & pac2 & Hrun2 & Ht2 & Hc2 & Hp2 & Hs2 & _).
  apply slots_fields in Hs2 as (_ & _ & _ & _ & _ & Hrd2 & _ & _ & _).
  fold wi in P1, P2. rewrite P1, P2, Hncb1, Hnct1 in Hrd2.
  exists w2, cap2, pac2.
  split; [exact Hrun2|]. split.
  { apply emitted_app. rewrite Ht2. unfold handoffEvents, publishEvents.
    rewrite P1, Hncb1. reflexivity. }
  split; [exact Hc2|]. split; [exact Hp2|].
  intros Hprev. apply Z.eqb_neq in Hprev. rewrite Hprev in Hrd2.
  injection Hrd2 as -> ->. split; reflexivity.
Qed.

(** Two iterations on a vector of one NV21 buffer, the listener 9 set. *)
Lemma pipeline_order_witness :
  exists w1 w2,
    threadLoop (mkWakeup 0 0) (world0 0 [mkStreamBuffer 1 2 2 35 0 2 0 80] 9) =
      Some (true, w1) /\
    threadLoop (mkWakeup 0 0) (performAll [CallSetFrameNumber 1] w1) =
      Some (true, w2) /\
    mCapturedBuffers (sensor w2) = 64 /\ mCaptureTime (sensor w2) = 1000.
Proof.
  destruct (pipeline_order (mkWakeup 0 0) (mkWakeup 0 0) [CallSetFrameNumber 1]
              (world0 0 [mkStreamBuffer 1 2 2 35 0 2 0 80] 9))
    as (w1 & c1 & p1 & Hrun1 & _ & _ & _ & Hncb & _ & Hnext).
  { right. vm_compute. eexists. reflexivity. }
  destruct Hnext as (w2 & c2 & p2 & Hrun2 & _ & _ & _ & Hpub).
  { left.
    assert (E : Some (true, w1) = Some (true, w1)) by reflexivity.
    rewrite <- Hrun1 in E at 1. vm_compute in E.
    injection E as E. rewrite <- E. reflexivity. }
  exists w1, w2. split; [exact Hrun1|]. split; [exact Hrun2|].
  apply Hpub. discriminate.
Defined.

(** ** The capture timestamp *)

Lemma forallb_In {A} (P : A -> bool) (l : list A) (x : A) :
  forallb P l = true -> In x l -> P x = true.
Proof. intros H. now apply forallb_forall. Qed.

(** C10: the timestamp of an iteration is the clock value read right after
    the control snapshot: before the readout handoff (and its unbounded
    wait) and before every query to the host camera.  It is the timestamp
    of the EXPOSURE_START notification of that iteration, it is kept in
    [mNextCaptureTime], the next iteration stores it in the readout slot
    with the captured vector, and [waitForNewFrame] then delivers it. *)
Theorem capture_timestamp_is_iteration_start (wake1 wake2 wake3 : Wakeup)
    (calls : list Call) (reltime captureTime : Z) (res : status_t) (w0 : World) :
  validNext w0 ->
  let t := startTime w0 in
  exists w1 captures pacing,
    threadLoop wake1 w0 = Some (true, w1) /\
    emitted w0 w1 =
      [EvLock mControlMutex; EvSignal mVSync; EvUnlock mControlMutex;
       EvSystemTime t] ++
      handoffEvents (sensor w0) ++ exposureEvents (sensor w0) t ++
      captures ++ pacing /\
    forallb isCaptureEvent captures = true /\
    forallb isPacingEvent pacing = true /\
    (forall l n t', In (EvExposureStart l n t') (emitted w0 w1) -> t' = t) /\
    mNextCaptureTime (sensor w1) = t /\
    (validNext (performAll calls w1) ->
     mNextBuffers (sensor w0) <> nullptr ->
     exists w2,
       threadLoop wake2 (performAll calls w1) = Some (true, w2) /\
       mCapturedBuffers (sensor w2) = mNextBuffers (sensor w0) /\
       mCaptureTime (sensor w2) = t /\
       fst (waitForNewFrame reltime captureTime res wake3 w2) = (true, t)).
Proof.
  intros Hv0 t. subst t.
  destruct (threadLoop_shape wake1 w0 Hv0)
    as (w1 & cap1 & pac1 & Hrun1 & Ht1 & Hc1 & Hp1 & Hs1 & _).
  apply slots_fields in Hs1 as (_ & _ & _ & _ & _ & _ & _ & Hnct1 & Hncb1).
  apply emitted_app in Ht1.
  exists w1, cap1, pac1.
  split; [exact Hrun1|]. split; [exact Ht1|].
  split; [exact Hc1|]. split; [exact Hp1|]. split; [|split; [exact Hnct1|]].
  - intros l n t' Hin. rewrite Ht1 in Hin.
    simpl in Hin. destruct Hin as [H|[H|[H|[H|Hin]]]]; try discriminate.
    apply in_app_or in Hin. destruct Hin as [Hin|Hin].
    { unfold handoffEvents in Hin.
      destruct (mNextCapturedBuffers (sensor w0) =? nullptr); [destruct Hin|].
      simpl in Hin. destruct Hin as [H|Hin]; [discriminate|].
      destruct (mCapturedBuffers (sensor w0) =? nullptr); simpl in Hin;
        repeat (destruct Hin as [H|Hin]; [discriminate|]); destruct Hin. }
    apply in_app_or in Hin. destruct Hin as [Hin|Hin].
    { unfold exposureEvents in Hin.
      destruct ((mNextBuffers (sensor w0) =? nullptr) ||
                (mListener (sensor w0) =? nullptr)); [destruct Hin|].
      destruct Hin as [H|[]]. now injection H. }
    apply in_app_or in Hin. destruct Hin as [Hin|Hin].
    + apply (forallb_In _ _ _ Hc1) in Hin. discriminate.
    + apply (forallb_In _ _ _ Hp1) in Hin. discriminate.
  - intros Hvi Hprev.
    destruct (performAll_private calls w1) as (P1 & P2 & _).
    destruct (threadLoop_shape wake2 _ Hvi)
      as (w2 & cap2 & pac2 & Hrun2 & _ & _ & _ & Hs2 & _).
    apply slots_fields in Hs2 as (_ & _ & _ & _ & _ & Hrd2 & _ & _ & _).
    rewrite P1, P2, Hncb1, Hnct1 in Hrd2.
    apply Z.eqb_neq in Hprev. rewrite Hprev in Hrd2.
    injection Hrd2 as Hcb Hct.
    exists w2. split; [exact Hrun2|]. split; [exact Hcb|]. split; [exact Hct|].
    apply Z.eqb_neq in Hprev. rewrite <- Hcb in Hprev. rewrite <- Hct.
    clear - Hprev. open_world w2. simpl in *.
    unfold waitForNewFrame. unfold_monad.
    apply Z.eqb_neq in Hprev. rewrite Hprev. reflexivity.
Qed.

Lemma capture_timestamp_is_iteration_start_witness :
  exists w1 w2,
    threadLoop (mkWakeup 0 0) (world0 0 [mkStreamBuffer 1 2 2 35 0 2 0 80] 9) =
      Some (true, w1) /\
    mNextCaptureTime (sensor w1) = 1000 /\
    threadLoop (mkWakeup 0 0) (performAll [] w1) = Some (true, w2) /\
    fst (waitForNewFrame 66000000 0 OK (mkWakeup 0 0) w2) = (true, 1000).
Proof.
  destruct (capture_timestamp_is_iteration_start (mkWakeup 0 0) (mkWakeup 0 0)
              (mkWakeup 0 0) [] 66000000 0 OK
              (world0 0 [mkStreamBuffer 1 2 2 35 0 2 0 80] 9))
    as (w1 & c1 & p1 & Hrun1 & _ & _ & _ & _ & Hnct & Hnext).
  { right. vm_compute. eexists. reflexivity. }
  destruct Hnext as (w2 & Hrun2 & _ & _ & Hwait).
  { left.
    assert (E : Some (true, w1) = Some (true, w1)) by reflexivity.
    rewrite <- Hrun1 in E at 1. vm_compute in E.
    injection E as E. rewrite <- E. reflexivity. }
  { discriminate. }
  exists w1, w2. repeat split; assumption.
Defined.

(** ** The auxiliary buffer of a BLOB buffer *)

Lemma u32_nonneg z : 0 <= u32 z.
Proof. unfold u32. apply Z.mod_pos_bound. reflexivity. Qed.

Lemma u32_small z : 0 <= z < 2 ^ 32 -> u32 z = z.
Proof. intros H. unfold u32. now apply Z.mod_small. Qed.

Lemma isBlob_true b :
  format b = HAL_PIXEL_FORMAT_BLOB -> dataSpace b <> HAL_DATASPACE_DEPTH ->
  isBlob b = true.
Proof.
  intros F D. unfold isBlob. rewrite F. apply Z.eqb_neq in D. now rewrite D.
Qed.

Lemma captureBuffer_blob v b :
  isBlob b = true ->
  captureBuffer v b =
    (let* p := new_uint8 (u32 (u32 (width b * height b) * 3)) in
     fun w => push_back v (auxBuffer b (uninit (host w)) p) w).
Proof.
  intros B.
  destruct (captureBuffer_cases v b)
    as [[F _]|[[F _]|[[_ E]|(B' & _)]]]; [| |exact E|congruence];
    unfold isBlob in B; rewrite F in B; discriminate.
Qed.

(** One step of the loop on the element at index [i]. *)
Lemma captureLoop_step fuel i v w bs b :
  vectors w !! v = Some bs -> bs !! i = Some b ->
  captureLoop (S fuel) i v w = captureLoop fuel (S i) v (exec (captureBuffer v b) w).
Proof. intros Hv Hb. simpl. now rewrite Hv, Hb. Qed.

(** C2: when the loop reaches a BLOB buffer whose data space is not DEPTH,
    it appends exactly one buffer to the same vector: stream 0, the width
    and height of the BLOB buffer, format YCbCr_420_888, stride equal to
    the width, a null buffer handle, and as image a region that was not
    allocated before, is not null, and holds width*height*3 bytes (the
    product taken in [uint32_t], hence exact whenever it fits 32 bits). *)
Theorem blob_appends_auxiliary_buffer (v : ptr) (i fuel : nat)
    (b : StreamBuffer) (bs : Buffers) (w : World) :
  vectors w !! v = Some bs ->
  bs !! i = Some b ->
  format b = HAL_PIXEL_FORMAT_BLOB ->
  dataSpace b <> HAL_DATASPACE_DEPTH ->
  let w' := exec (captureBuffer v b) w in
  captureLoop (S fuel) i v w = captureLoop fuel (S i) v w' /\
  exists aux region,
    vectors w' !! v = Some (bs ++ [aux]) /\
    streamId aux = 0 /\
    width aux = width b /\ height aux = height b /\
    format aux = HAL_PIXEL_FORMAT_YCbCr_420_888 /\
    stride aux = width b /\
    buffer aux = nullptr /\
    img aux <> nullptr /\
    heap w !! img aux = None /\
    heap w' !! img aux = Some region /\
    Z.of_nat (length region) = u32 (u32 (width b * height b) * 3) /\
    (0 <= width b * height b * 3 < 2 ^ 32 ->
     Z.of_nat (length region) = width b * height b * 3) /\
    (forall q, q <> img aux -> heap w' !! q = heap w !! q) /\
    (forall u, u <> v -> vectors w' !! u = vectors w !! u).
Proof.
  intros Hv Hb F D w'. subst w'.
  split; [now apply captureLoop_step with bs|].
  rewrite (captureBuffer_blob v b (isBlob_true b F D)).
  open_world w. simpl in Hv.
  unfold exec, bind, new_uint8, push_back. simpl.
  match goal with
  | |- context [fresh ?X] =>
      pose proof (is_fresh X) as Hfresh; set (p := fresh X) in *
  end.
  eexists. eexists.
  split; [rewrite lookup_alter_eq, Hv; reflexivity|].
  repeat (split; [reflexivity|]). simpl.
  split; [intros E; apply Hfresh; rewrite E; set_solver|].
  split; [apply not_elem_of_dom; set_solver|].
  split; [apply lookup_insert_eq|].
  assert (Hlen : Z.of_nat (length (replicate
                   (Z.to_nat (u32 (u32 (width b * height b) * 3))) Undef)) =
                 u32 (u32 (width b * height b) * 3)).
  { rewrite length_replicate. apply Z2Nat.id. apply u32_nonneg. }
  split; [exact Hlen|].
  split.
  { intros Hfit. rewrite Hlen.
    rewrite (u32_small (width b * height b)) by lia.
    apply u32_small. lia. }
  split.
  - intros q Hq. now apply lookup_insert_ne.
  - intros u Hu. now apply lookup_alter_ne.
Qed.

Lemma blob_appends_auxiliary_buffer_witness :
  exists aux region,
    vectors (exec (captureBuffer 64 blob2x2) (world0 0 [blob2x2] 0)) !! 64 =
      Some ([blob2x2] ++ [aux]) /\
    heap (exec (captureBuffer 64 blob2x2) (world0 0 [blob2x2] 0)) !! img aux =
      Some region /\
    Z.of_nat (length region) = 12.
Proof.
  destruct (blob_appends_auxiliary_buffer 64 0 2 blob2x2 [blob2x2]
              (world0 0 [blob2x2] 0))
    as (_ & aux & region & Hvec & _ & _ & _ & _ & _ & _ & _ & _ & Hreg & _ & Hsz & _).
  - reflexivity.
  - reflexivity.
  - reflexivity.
  - discriminate.
  - exists aux, region. split; [exact Hvec|]. split; [exact Hreg|].
    apply Hsz. simpl. lia.
Defined.

(** ** Buffers the sensor cannot fill *)

Lemma captureBuffer_misconfigured v b :
  misconfigured b ->
  exists fmt, captureBuffer v b = event (EvLog LOG_ERROR fmt).
Proof.
  intros M.
  destruct (captureBuffer_cases v b)
    as [[F _]|[[F _]|[[B _]|(_ & _ & _ & fmt & E)]]]; [| | |eauto];
    exfalso; unfold isBlob in *;
    destruct M as [M|[[M D]|(M3 & M1 & M33 & M35)]];
    try congruence;
    try (rewrite M in F; discriminate).
  - rewrite M in B. discriminate.
  - rewrite M, D in B. discriminate.
  - apply andb_prop in B. destruct B as [B _]. apply Z.eqb_eq in B. congruence.
Qed.

(** C8 (as amended): the loop body, on a buffer that is RGB_888, a depth
    BLOB or of unknown format, writes one error line to the log and does
    nothing else: no query to the host camera, no byte of any image region
    changed, no buffer appended; the loop goes on with the following
    buffers.  The EXPOSURE_START notification precedes the loop and is sent
    whenever the vector is not null and a listener is registered, whatever
    the buffers are. *)
Theorem misconfigured_buffer_skipped (v : ptr) (i fuel : nat)
    (b : StreamBuffer) (bs bs0 : Buffers) (w w0 : World) (wake : Wakeup) :
  (vectors w !! v = Some bs ->
   bs !! i = Some b ->
   misconfigured b ->
   let w' := exec (captureBuffer v b) w in
   (exists fmt, trace w' = trace w ++ [EvLog LOG_ERROR fmt]) /\
   upstream (emitted w w') = [] /\
   heap w' = heap w /\ vectors w' = vectors w /\
   sensor w' = sensor w /\ host w' = host w /\
   captureLoop (S fuel) i v w = captureLoop fuel (S i) v w') /\
  (mNextBuffers (sensor w0) <> nullptr ->
   vectors w0 !! mNextBuffers (sensor w0) = Some bs0 ->
   mListener (sensor w0) <> nullptr ->
   exists w1,
     threadLoop wake w0 = Some (true, w1) /\
     In (EvExposureStart (mListener (sensor w0)) (mFrameNumber (sensor w0))
           (startTime w0))
        (emitted w0 w1)).
Proof.
  split.
  - intros Hv Hb M w'. subst w'.
    pose proof (captureLoop_step fuel i v w bs b Hv Hb) as Hstep.
    destruct (captureBuffer_misconfigured v b M) as [fmt E].
    rewrite E in *. clear E Hv.
    open_world w. simpl in *.
    split; [exists fmt; reflexivity|].
    split; [erewrite emitted_app by reflexivity; reflexivity|].
    repeat (split; [reflexivity|]). exact Hstep.
  - intros Hn Hv Hl.
    destruct (threadLoop_shape wake w0) as (w1 & cap & pac & Hrun & Ht & _).
    { right. rewrite Hv. eauto. }
    exists w1. split; [exact Hrun|].
    rewrite (emitted_app _ _ _ Ht).
    apply in_or_app. right. apply in_or_app. right. apply in_or_app. left.
    unfold exposureEvents.
    apply Z.eqb_neq in Hn. apply Z.eqb_neq in Hl. rewrite Hn, Hl.
    left. reflexivity.
Qed.

(** A request of one depth BLOB with the listener 9 registered: the buffer
    is skipped and the notification is sent. *)
Lemma misconfigured_buffer_skipped_witness :
  (exists fmt,
     trace (exec (captureBuffer 64 depthBlob) (world0 0 [depthBlob] 9)) =
       [EvLog LOG_ERROR fmt]) /\
  exists w1,
    threadLoop (mkWakeup 0 0) (world0 0 [depthBlob] 9) = Some (true, w1) /\
    In (EvExposureStart 9 0 1000) (emitted (world0 0 [depthBlob] 9) w1).
Proof.
  destruct (misconfigured_buffer_skipped 64 0 1 depthBlob [depthBlob] [depthBlob]
              (world0 0 [depthBlob] 9) (world0 0 [depthBlob] 9) (mkWakeup 0 0))
    as [HA HB].
  split.
  - apply HA.
    + reflexivity.
    + reflexivity.
    + right. left. split; reflexivity.
  - apply HB.
    + discriminate.
    + reflexivity.
    + discriminate.
Defined.

(** C8 fails as stated: with no listener registered (the state the
    constructor leaves), a request of one depth BLOB runs its iteration
    with a non-null vector and no EXPOSURE_START notification is sent. *)
Lemma no_exposure_start_without_listener :
  mNextBuffers (sensor (world0 0 [depthBlob] nullptr)) <> nullptr /\
  exists w1,
    threadLoop (mkWakeup 0 0) (world0 0 [depthBlob] nullptr) = Some (true, w1) /\
    List.filter isExposureStart (trace w1) = [].
Proof.
  split; [discriminate|].
  eexists. split; [vm_compute; reflexivity|]. reflexivity.
Qed.

(** ** The auxiliary buffer is captured in the same iteration *)

(** The frame queries of [captureNV21]: one, unless the restart fails. *)
Lemma captureNV21_fetch (img : ptr) (width height stride : Z) (w : World) :
  List.filter isQueryFrame (emitted w (exec (captureNV21 img width height stride) w)) =
    (if restarted w width height
     then [EvQueryFrame img nullptr (u32 (u32 (width * height) * 12) / 8) 0]
     else []).
Proof.
  unfold restarted, latchDiffers, latchIsSentinel.
  open_world w.
  match goal with
  | |- context [emitted ?w0 _] =>
      assert (Hout : forall evs w2, trace w2 = trace w0 ++ evs ->
                                    emitted w0 w2 = evs)
        by (intros evs w2 E; now apply emitted_app)
  end.
  simpl in *.
  unfold captureNV21, restartOnNewSize, warnStride,
    queryStop, queryStart, queryFrame, reply, deliver; unfold_monad;
    repeat match goal with
           | |- context [Z.eqb ?a ?b] => destruct (Z.eqb a b) eqn:?; simpl
           end;
    erewrite Hout by (simpl; trace_norm; reflexivity); reflexivity.
Qed.

(** C9 (as amended): the loop reads the size of the vector again at every
    step, so on a vector of one non-depth BLOB buffer it goes on to the
    auxiliary buffer it has just appended and runs [captureNV21] on the
    region allocated for it; this fetches a frame of width*height*12/8
    bytes (the product taken in [uint32_t]) on the YUV path, unless the
    start of the host camera that the new size requires fails, in which
    case no frame is fetched. *)
Theorem blob_auxiliary_captured (v : ptr) (b : StreamBuffer) (w : World) :
  vectors w !! v = Some [b] ->
  format b = HAL_PIXEL_FORMAT_BLOB ->
  dataSpace b <> HAL_DATASPACE_DEPTH ->
  let p := fresh (dom (heap w) ∪ {[nullptr]}) in
  let aux := auxBuffer b (uninit (host w)) p in
  let w1 := exec (captureBuffer v b) w in
  let w' := exec (captureNV21 p (width b) (height b) (width b)) w1 in
  captureLoop (captureFuel w v) 0 v w = Some w' /\
  vectors w' !! v = Some [b; aux] /\
  List.filter isQueryFrame (emitted w w') =
    (if restarted w (width b) (height b)
     then [EvQueryFrame p nullptr (u32 (u32 (width b * height b) * 12) / 8) 0]
     else []).
Proof.
  intros Hv F D p aux w1 w'.
  pose proof (captureBuffer_blob v b (isBlob_true b F D)) as Hblob.
  assert (H1 : vectors w1 !! v = Some [b; aux] /\ sensor w1 = sensor w /\
               host w1 = host w /\ trace w1 = trace w).
  { subst w1 aux p. rewrite Hblob. clear Hblob. open_world w. simpl in Hv.
    unfold exec, bind, new_uint8, push_back. simpl.
    rewrite lookup_alter_eq, Hv. repeat split. }
  destruct H1 as (Hv1 & Hs1 & Hh1 & Ht1).
  assert (Hv' : vectors w' !! v = Some [b; aux]).
  { subst w'. rewrite (capture_vectors NV21). exact Hv1. }
  split; [|split; [exact Hv'|]].
  - unfold captureFuel. rewrite Hv.
    change (S (2 * length [b])) with 3%nat.
    rewrite (captureLoop_step _ 0 v w [b] b Hv eq_refl). fold w1.
    rewrite (captureLoop_step _ 1 v w1 [b; aux] aux Hv1 eq_refl).
    assert (Haux : captureBuffer v aux =
                   captureNV21 p (width b) (height b) (width b)) by reflexivity.
    rewrite Haux. fold w'. simpl. now rewrite Hv'.
  - assert (Hem : emitted w w' = emitted w1 w')
      by (unfold emitted; now rewrite Ht1).
    rewrite Hem. subst w'. rewrite captureNV21_fetch.
    unfold restarted. now rewrite Hs1, Hh1.
Qed.

Lemma blob_auxiliary_captured_witness :
  exists w',
    captureLoop 3 0 64 (world0 0 [blob2x2] 0) = Some w' /\
    List.filter isQueryFrame (emitted (world0 0 [blob2x2] 0) w') =
      [EvQueryFrame 1 nullptr 6 0].
Proof.
  destruct (blob_auxiliary_captured 64 blob2x2 (world0 0 [blob2x2] 0))
    as (Hloop & _ & Hq); [reflexivity | reflexivity | discriminate |].
  eexists. split; [exact Hloop | exact Hq].
Defined.

(** C9 fails as stated: when the host camera refuses to start, a request
    of one non-depth BLOB buffer gets its auxiliary buffer appended and
    [captureNV21] run on it, but the only query sent is the start: no frame
    is fetched. *)
Lemma blob_auxiliary_not_fetched_when_start_fails :
  exists w1,
    threadLoop (mkWakeup 0 0) (world0 (-1) [blob2x2] nullptr) = Some (true, w1) /\
    length <$> (vectors w1 !! 64) = Some 2%nat /\
    upstream (trace w1) = [EvQueryStart V4L2_PIX_FMT_NV21 2 2] /\
    List.filter isQueryFrame (trace w1) = [].
Proof.
  eexists. split; [vm_compute; reflexivity|]. repeat split.
Qed.

(** * Further properties *)

(** ** Captures in sequence *)

(** The queries, the latch and the device state after a capture function. *)
Lemma capture_effect (k : CaptureKind) (img : ptr)
    (width height stride : Z) (w : World) :
  let s := sensor w in
  let w' := exec (capture k img width height stride) w in
  let stopOk := replies (host w) (queries (host w)) =? NO_ERROR in
  let startOk :=
    replies (host w) (if latchIsSentinel s then queries (host w)
                      else S (queries (host w))) =? NO_ERROR in
  upstream (emitted w w') =
    (if latchDiffers s width height then
       (if latchIsSentinel s then [] else [EvQueryStop]) ++
       EvQueryStart V4L2_PIX_FMT_NV21 width height ::
       (if startOk then [frameQuery k img width height] else [])
     else [frameQuery k img width height]) /\
  latch (sensor w') =
    (if latchDiffers s width height && startOk then (width, height) else latch s) /\
  mState (sensor w') =
    (if latchDiffers s width height then
       if startOk then ECDS_STARTED
       else if latchIsSentinel s then mState s
       else if stopOk then ECDS_CONNECTED else mState s
     else mState s).
Proof.
  intros s w' stopOk startOk. subst s w' stopOk startOk.
  unfold latchDiffers, latchIsSentinel, latch.
  pose proof (emitted_app w) as Hout.
  open_world w. simpl in *.
  destruct k; simpl;
    unfold captureRGBA, captureNV21, restartOnNewSize, warnStride,
      queryStop, queryStart, queryFrame, reply, deliver; unfold_monad;
    repeat match goal with
           | |- context [Z.eqb ?a ?b] => destruct (Z.eqb a b) eqn:?; simpl
           end;
    (split; [ erewrite Hout by (simpl; trace_norm; reflexivity); reflexivity
            | split; reflexivity ]).
Qed.

Lemma latchDiffers_latch s width height :
  latch s = (width, height) -> latchDiffers s width height = false.
Proof.
  unfold latch, latchDiffers. intros H. injection H as -> ->.
  now rewrite !Z.eqb_refl.
Qed.

(** Once a capture has the host camera started for a size (its restart
    succeeded, or none was needed), every further capture of that size, on
    either path, with any image and stride, sends the frame query alone:
    no stop, no start. *)
Theorem same_size_capture_sends_frame_only (k1 k2 : CaptureKind)
    (img1 img2 : ptr) (width height stride1 stride2 : Z) (w : World) :
  restarted w width height = true ->
  let w1 := exec (capture k1 img1 width height stride1) w in
  let w2 := exec (capture k2 img2 width height stride2) w1 in
  upstream (emitted w1 w2) = [frameQuery k2 img2 width height] /\
  latch (sensor w2) = (width, height) /\
  mState (sensor w2) = mState (sensor w1).
Proof.
  intros Hr w1 w2.
  destruct (capture_effect k1 img1 width height stride1 w) as (_ & Hl1 & _).
  fold w1 in Hl1.
  assert (L1 : latch (sensor w1) = (width, height)).
  { rewrite Hl1. unfold restarted in Hr.
    destruct (latchDiffers (sensor w) width height) eqn:D; simpl in Hr |- *.
    - now rewrite Hr.
    - unfold latchDiffers in D. apply orb_false_elim in D as [D1 D2].
      apply negb_false_iff in D1, D2. apply Z.eqb_eq in D1, D2.
      unfold latch. now rewrite <- D1, <- D2. }
  destruct (capture_effect k2 img2 width height stride2 w1) as (Hu & Hl & Hs).
  fold w2 in Hu, Hl, Hs.
  rewrite (latchDiffers_latch _ _ _ L1) in Hu, Hl, Hs. simpl in Hl.
  split; [exact Hu|]. split; [now rewrite Hl | exact Hs].
Qed.

Lemma same_size_capture_sends_frame_only_witness :
  upstream (emitted (exec (capture RGBA 10 640 480 640) (world0 0 [] 0))
              (exec (capture NV21 20 640 480 640)
                 (exec (capture RGBA 10 640 480 640) (world0 0 [] 0)))) =
    [EvQueryFrame 20 nullptr 460800 0].
Proof.
  apply (same_size_capture_sends_frame_only RGBA NV21 10 20 640 480 640 640
           (world0 0 [] 0)).
  reflexivity.
Defined.

(** When a change of size fails at the start query, after a stop that
    succeeded, the latch still holds the old size while the host camera is
    stopped: the next capture of the old size fetches a frame without
    starting the camera again, the device state being CONNECTED. *)
Theorem failed_restart_then_old_size (k1 k2 : CaptureKind) (img1 img2 : ptr)
    (width0 height0 width1 height1 stride1 stride2 : Z) (w : World) :
  latch (sensor w) = (width0, height0) ->
  latchIsSentinel (sensor w) = false ->
  latchDiffers (sensor w) width1 height1 = true ->
  replies (host w) (queries (host w)) = NO_ERROR ->
  replies (host w) (S (queries (host w))) <> NO_ERROR ->
  let wa := exec (capture k1 img1 width1 height1 stride1) w in
  let wb := exec (capture k2 img2 width0 height0 stride2) wa in
  upstream (emitted w wa) =
    [EvQueryStop; EvQueryStart V4L2_PIX_FMT_NV21 width1 height1] /\
  mState (sensor wa) = ECDS_CONNECTED /\
  upstream (emitted wa wb) = [frameQuery k2 img2 width0 height0] /\
  mState (sensor wb) = ECDS_CONNECTED.
Proof.
  intros L S D Hstop Hstart wa wb.
  destruct (capture_effect k1 img1 width1 height1 stride1 w) as (Hu & Hl & Hs).
  fold wa in Hu, Hl, Hs.
  apply Z.eqb_neq in Hstart.
  rewrite D, S in Hu, Hl, Hs. rewrite Hstart in Hu, Hl, Hs.
  rewrite Hstop in Hs. simpl in Hu, Hl, Hs.
  rewrite L in Hl.
  destruct (capture_effect k2 img2 width0 height0 stride2 wa) as (Hu2 & _ & Hs2).
  fold wb in Hu2, Hs2.
  rewrite (latchDiffers_latch _ _ _ Hl) in Hu2, Hs2.
  repeat split; try assumption. now rewrite Hs2.
Qed.

Lemma failed_restart_then_old_size_witness :
  upstream (emitted refusing
              (exec (capture NV21 20 1280 720 1280) refusing)) =
    [EvQueryStop; EvQueryStart V4L2_PIX_FMT_NV21 1280 720] /\
  upstream (emitted (exec (capture NV21 20 1280 720 1280) refusing)
              (exec (capture NV21 10 640 480 640)
                 (exec (capture NV21 20 1280 720 1280) refusing))) =
    [EvQueryFrame 10 nullptr 460800 0].
Proof.
  destruct (failed_restart_then_old_size NV21 NV21 20 10 640 480 1280 720
              1280 640 refusing) as (H1 & _ & H2 & _);
    try reflexivity; try discriminate.
  split; assumption.
Defined.

(** ** The stride *)

Lemma restartOnNewSize_trace width height w :
  exists evs,
    trace (snd (restartOnNewSize width height w)) = trace w ++ evs /\
    List.filter isWarning evs = [].
Proof.
  open_world w. unfold restartOnNewSize, queryStop, queryStart, reply.
  unfold_monad.
  repeat match goal with
         | |- context [Z.eqb ?a ?b] => destruct (Z.eqb a b) eqn:?; simpl
         end; appended.
Qed.

(** A frame query does the same after one more event in the trace. *)
Lemma queryFrame_after_event e v p vs ps x :
  let x' := exec (queryFrame v p vs ps) x in
  let y' := exec (queryFrame v p vs ps) (emit e x) in
  sensor y' = sensor x' /\ heap y' = heap x' /\ host y' = host x' /\
  vectors y' = vectors x' /\
  exists evs, trace x' = trace x ++ evs /\ trace y' = trace x ++ e :: evs /\
              List.filter isWarning evs = [].
Proof.
  open_world x. unfold queryFrame, reply, deliver. unfold_monad.
  repeat match goal with
         | |- context [Z.eqb ?a ?b] => destruct (Z.eqb a b) eqn:?; simpl
         end;
    repeat (split; [reflexivity|]); eexists;
    (split; [trace_norm; reflexivity|]);
    (split; [trace_norm; reflexivity | reflexivity]).
Qed.

Lemma filter_not_warning evs :
  List.filter isWarning evs = [] ->
  List.filter (fun e => negb (isWarning e)) evs = evs.
Proof.
  induction evs as [|e evs IH]; [reflexivity|]. simpl.
  destruct (isWarning e); [discriminate|]. intros H. simpl. now rewrite IH.
Qed.

Lemma exec_bind {A B} (c : M A) (k : A -> M B) (w : World) :
  exec (let* a := c in k a) w = exec (k (fst (c w))) (snd (c w)).
Proof. unfold exec, bind. now destruct (c w). Qed.

Lemma exec_warn_query width stride v p vs ps x :
  exec (warnStride width stride >> (let* _ := queryFrame v p vs ps in ret tt)) x =
    exec (queryFrame v p vs ps)
      (if negb (width =? stride) then emit strideWarning x else x).
Proof.
  unfold warnStride, when, exec, bind, ret, event, strideWarning.
  destruct (negb (width =? stride)); cbv beta iota;
    match goal with
    | |- context [queryFrame v p vs ps ?z] =>
        destruct (queryFrame v p vs ps z); reflexivity
    end.
Qed.

(** The stride of a buffer only decides whether a warning is logged: with
    any stride a capture leaves the same sensor, image regions, host and
    vectors, and sends the same events, as with the stride equal to the
    width, which logs no warning. *)
Theorem stride_only_warns (k : CaptureKind) (img : ptr)
    (width height stride : Z) (w : World) :
  let wa := exec (capture k img width height stride) w in
  let wb := exec (capture k img width height width) w in
  sensor wa = sensor wb /\ heap wa = heap wb /\ host wa = host wb /\
  vectors wa = vectors wb /\
  List.filter (fun e => negb (isWarning e)) (emitted w wa) = emitted w wb /\
  List.filter isWarning (emitted w wb) = [].
Proof.
  intros wa wb. subst wa wb.
  destruct (restartOnNewSize_trace width height w) as (evs0 & Ht0 & Hw0).
  assert (Hgen : forall v p vs ps,
    let c s := (let* started := restartOnNewSize width height in
                if started : bool then
                  warnStride width s >> (let* _ := queryFrame v p vs ps in ret tt)
                else ret tt) in
    sensor (exec (c stride) w) = sensor (exec (c width) w) /\
    heap (exec (c stride) w) = heap (exec (c width) w) /\
    host (exec (c stride) w) = host (exec (c width) w) /\
    vectors (exec (c stride) w) = vectors (exec (c width) w) /\
    List.filter (fun e => negb (isWarning e)) (emitted w (exec (c stride) w)) =
      emitted w (exec (c width) w) /\
    List.filter isWarning (emitted w (exec (c width) w)) = []).
  { intros v p vs ps c. subst c. cbv beta. rewrite !exec_bind.
    destruct (restartOnNewSize width height w) as [started x].
    cbn [fst snd] in *.
    destruct started.
    - rewrite !exec_warn_query. rewrite Z.eqb_refl. cbn [negb].
      destruct (queryFrame_after_event strideWarning v p vs ps x)
        as (Hs & Hh & Hho & Hv & evs & Hx & Hy & Hw).
      assert (Hb : emitted w (exec (queryFrame v p vs ps) x) = evs0 ++ evs)
        by (apply emitted_app; rewrite Hx, Ht0; now rewrite app_assoc).
      destruct (negb (width =? stride)).
      + repeat (split; [assumption|]).
        erewrite emitted_app
          by (rewrite Hy, Ht0, <- app_assoc; reflexivity).
        rewrite Hb. rewrite !List.filter_app.
        cbn [List.filter isWarning strideWarning negb].
        rewrite Hw0, Hw.
        rewrite !filter_not_warning by assumption. split; reflexivity.
      + repeat (split; [reflexivity|]).
        rewrite Hb, !List.filter_app, Hw0, Hw.
        rewrite !filter_not_warning by assumption. split; reflexivity.
    - unfold exec, ret. cbn [snd]. repeat (split; [reflexivity|]).
      erewrite emitted_app by exact Ht0.
      rewrite Hw0, filter_not_warning by assumption. split; reflexivity. }
  destruct k; apply Hgen.
Qed.

(** ** Start-up and shut-down *)

(** [startUp] reports the connection, not the thread: whatever status
    [Thread::run] returned, the result is the status of [connectClient] if
    that failed and the status of [queryConnect] otherwise; the device
    state becomes CONNECTED exactly when both succeeded, that is when the
    result is [NO_ERROR]; the readout slot is emptied; the resolution latch
    is left as it was. *)
Theorem startUp_reports_connection (deviceName : string) (runRes : status_t)
    (w : World) :
  let c1 := replies (host w) (queries (host w)) in
  let c2 := replies (host w) (S (queries (host w))) in
  let res := eval (startUp deviceName runRes) w in
  let w' := exec (startUp deviceName runRes) w in
  res = (if c1 =? NO_ERROR then c2 else c1) /\
  mState (sensor w') =
    (if (c1 =? NO_ERROR) && (c2 =? NO_ERROR) then ECDS_CONNECTED
     else mState (sensor w)) /\
  mCapturedBuffers (sensor w') = nullptr /\
  latch (sensor w') = latch (sensor w) /\
  upstream (emitted w w') = [] /\
  sensor w' = sensor (exec (startUp deviceName OK) w).
Proof.
  intros c1 c2 res w'. subst c1 c2 res w'.
  pose proof (emitted_app w) as Hout.
  open_world w. simpl in *.
  unfold startUp, connectClient, queryConnect, reply. unfold_monad.
  repeat match goal with
         | |- context [Z.eqb ?a ?b] => destruct (Z.eqb a b) eqn:?; simpl
         end;
    repeat (split; [reflexivity|]);
    (split; [|reflexivity]);
    first [ erewrite Hout by (simpl; trace_norm; reflexivity); reflexivity
          | erewrite Hout by (symmetry; apply app_nil_r); reflexivity ].
Qed.

(** [shutDown] sends exactly one stop query whatever the status of the
    join, and returns the status of that query; the device state becomes
    CONNECTED when it succeeded and is unchanged otherwise; the resolution
    latch, the readout slot and the buffers the sensor thread still holds
    are left as they were. *)
Theorem shutDown_stops_once (exitRes : status_t) (w : World) :
  let res := eval (shutDown exitRes) w in
  let w' := exec (shutDown exitRes) w in
  res = replies (host w) (queries (host w)) /\
  upstream (emitted w w') = [EvQueryStop] /\
  mState (sensor w') =
    (if replies (host w) (queries (host w)) =? NO_ERROR then ECDS_CONNECTED
     else mState (sensor w)) /\
  latch (sensor w') = latch (sensor w) /\
  slots (sensor w') = slots (sensor w).
Proof.
  intros res w'. subst res w'.
  pose proof (emitted_app w) as Hout.
  open_world w. simpl in *.
  unfold shutDown, queryStop, reply. unfold_monad.
  repeat match goal with
         | |- context [Z.eqb ?a ?b] => destruct (Z.eqb a b) eqn:?; simpl
         end;
    (split; [reflexivity|]);
    (split; [erewrite Hout by (simpl; trace_norm; reflexivity); reflexivity|]);
    repeat split.
Qed.

Lemma shutDown_latch (exitRes : status_t) (w : World) :
  upstream (emitted w (exec (shutDown exitRes) w)) = [EvQueryStop] /\
  latch (sensor (exec (shutDown exitRes) w)) = latch (sensor w).
Proof.
  pose proof (emitted_app w) as Hout.
  open_world w. simpl in *.
  unfold shutDown, queryStop, reply. unfold_monad.
  repeat match goal with
         | |- context [Z.eqb ?a ?b] => destruct (Z.eqb a b) eqn:?; simpl
         end;
    (split; [erewrite Hout by (simpl; trace_norm; reflexivity)|]; reflexivity).
Qed.

Lemma startUp_latch (deviceName : string) (runRes : status_t) (w : World) :
  upstream (emitted w (exec (startUp deviceName runRes) w)) = [] /\
  latch (sensor (exec (startUp deviceName runRes) w)) = latch (sensor w).
Proof.
  pose proof (emitted_app w) as Hout.
  open_world w. simpl in *.
  unfold startUp, connectClient, queryConnect, reply. unfold_monad.
  repeat match goal with
         | |- context [Z.eqb ?a ?b] => destruct (Z.eqb a b) eqn:?; simpl
         end;
    (split; [|reflexivity]);
    first [ erewrite Hout by (simpl; trace_norm; reflexivity); reflexivity
          | erewrite Hout by (symmetry; apply app_nil_r); reflexivity ].
Qed.

(** Shutting the sensor down and starting it up again does not reset the
    resolution latch: the first capture of the latched size after the
    restart fetches a frame without any start query, although the host
    camera was stopped. *)
Theorem restart_keeps_latch (k : CaptureKind) (img : ptr)
    (width height stride : Z) (deviceName : string)
    (exitRes runRes : status_t) (w : World) :
  latch (sensor w) = (width, height) ->
  let w1 := exec (shutDown exitRes) w in
  let w2 := exec (startUp deviceName runRes) w1 in
  let w3 := exec (capture k img width height stride) w2 in
  upstream (emitted w w1) = [EvQueryStop] /\
  upstream (emitted w1 w2) = [] /\
  upstream (emitted w2 w3) = [frameQuery k img width height] /\
  mState (sensor w3) = mState (sensor w2).
Proof.
  intros L w1 w2 w3.
  destruct (shutDown_latch exitRes w) as (Hu1 & L1).
  destruct (startUp_latch deviceName runRes w1) as (Hu2 & L2).
  fold w1 in Hu1, L1. fold w1 w2 in Hu2, L2.
  destruct (capture_effect k img width height stride w2) as (Hu3 & _ & Hs3).
  fold w3 in Hu3, Hs3.
  assert (L3 : latch (sensor w2) = (width, height)) by now rewrite L2, L1.
  rewrite (latchDiffers_latch _ _ _ L3) in Hu3, Hs3.
  repeat split; assumption.
Qed.

Lemma restart_keeps_latch_witness :
  upstream (emitted
              (exec (startUp "cam0" OK)
                 (exec (shutDown OK)
                    (exec (capture NV21 10 640 480 640) (world0 0 [] 0))))
              (exec (capture NV21 10 640 480 640)
                 (exec (startUp "cam0" OK)
                    (exec (shutDown OK)
                       (exec (capture NV21 10 640 480 640) (world0 0 [] 0)))))) =
    [EvQueryFrame 10 nullptr 460800 0].
Proof.
  apply (restart_keeps_latch NV21 10 640 480 640 "cam0" OK OK
           (exec (capture NV21 10 640 480 640) (world0 0 [] 0))).
  reflexivity.
Defined.

(** ** The vector after the capture loop *)

Lemma capture_heap_dom k img wd ht st w :
  dom (heap (exec (capture k img wd ht st) w)) = dom (heap w).
Proof.
  open_world w. destruct k; unfold_capture; unfold_monad; split_ifs;
    rewrite ?dom_alter_L; reflexivity.
Qed.

(** What the loop body does to the vectors and to the image regions. *)
Lemma captureBuffer_store v b w :
  let p := fresh (dom (heap w) ∪ {[nullptr]}) in
  let aux := auxBuffer b (uninit (host w)) p in
  let w1 := exec (captureBuffer v b) w in
  if isBlob b then
    vectors w1 = alter (fun bs => bs ++ [aux]) v (vectors w) /\
    dom (heap w1) = {[p]} ∪ dom (heap w) /\ p <> nullptr /\ p ∉ dom (heap w)
  else
    vectors w1 = vectors w /\ dom (heap w1) = dom (heap w).
Proof.
  intros p aux w1. subst p aux w1.
  destruct (captureBuffer_cases v b)
    as [[F E]|[[F E]|[[B E]|(B & _ & _ & fmt & E)]]]; rewrite E.
  - unfold isBlob. rewrite F. simpl.
    split; [apply (capture_vectors RGBA) | apply (capture_heap_dom RGBA)].
  - unfold isBlob. rewrite F. simpl.
    split; [apply (capture_vectors NV21) | apply (capture_heap_dom NV21)].
  - rewrite B. clear E.
    pose proof (is_fresh (dom (heap w) ∪ {[nullptr]})) as Hf.
    open_world w. unfold exec, bind, new_uint8, push_back. simpl in *.
    split; [reflexivity|]. split; [apply dom_insert_L|].
    split; [intros E; apply Hf; rewrite E; set_solver | set_solver].
  - rewrite B. open_world w. split; reflexivity.
Qed.

Lemma auxOf_auxBuffer b junk p : p <> nullptr -> auxOf b (auxBuffer b junk p).
Proof. intros H. repeat split. exact H. Qed.

Lemma captureLoop_vector v fuel :
  forall i w cur w',
    vectors w !! v = Some cur ->
    captureLoop fuel i v w = Some w' ->
    exists auxs,
      vectors w' !! v = Some (cur ++ auxs) /\
      Forall2 auxOf (List.filter isBlob (drop i cur)) auxs /\
      (forall u, u <> v -> vectors w' !! u = vectors w !! u) /\
      dom (heap w) ⊆ dom (heap w') /\
      Forall (fun a => (img a ∉ dom (heap w)) /\ (img a ∈ dom (heap w'))) auxs /\
      NoDup (img <$> auxs).
Proof.
  induction fuel as [|fuel IH]; intros i w cur w' Hv H; [discriminate|].
  simpl in H. rewrite Hv in H.
  destruct (cur !! i) as [b|] eqn:Hb.
  - pose proof (lookup_lt_Some _ _ _ Hb) as Hlt.
    rewrite (drop_S _ _ _ Hb). simpl.
    pose proof (captureBuffer_store v b w) as Hst. simpl in Hst.
    destruct (isBlob b) eqn:B.
    + destruct Hst as (Hvec & Hdm & Hp & Hfresh).
      set (p := fresh (dom (heap w) ∪ {[nullptr]})) in *.
      set (aux := auxBuffer b (uninit (host w)) p) in *.
      assert (Hv1 : vectors (exec (captureBuffer v b) w) !! v = Some (cur ++ [aux]))
        by (rewrite Hvec, lookup_alter_eq, Hv; reflexivity).
      destruct (IH _ _ _ _ Hv1 H) as (auxs & Hv' & HF & Ho & Hd & Hreg & Hnd).
      rewrite drop_app_le in HF by lia.
      rewrite List.filter_app in HF. simpl in HF.
      replace (isBlob aux) with false in HF by reflexivity.
      rewrite app_nil_r in HF.
      exists (aux :: auxs).
      split; [rewrite Hv', <- app_assoc; reflexivity|].
      split; [constructor; [now apply auxOf_auxBuffer | exact HF]|].
      split.
      { intros u Hu. rewrite (Ho u Hu), Hvec. now apply lookup_alter_ne. }
      split; [etrans; [|exact Hd]; rewrite Hdm; apply union_subseteq_r|].
      split.
      { constructor;
          [split; [exact Hfresh
                  |apply Hd; rewrite Hdm; apply elem_of_union_l, elem_of_singleton;
                   reflexivity]|].
        eapply Forall_impl; [exact Hreg|]. simpl. intros a [Ha1 Ha2].
        split; [|exact Ha2].
        intros X. apply Ha1. rewrite Hdm. apply elem_of_union_r, X. }
      simpl. constructor; [|exact Hnd].
      intros Hmem. apply list_elem_of_fmap in Hmem as (a & Ea & Ha).
      rewrite Forall_forall in Hreg. destruct (Hreg a Ha) as [Hn _].
      apply Hn. rewrite <- Ea, Hdm.
      apply elem_of_union_l, elem_of_singleton. reflexivity.
    + destruct Hst as (Hvec & Hdm).
      assert (Hv1 : vectors (exec (captureBuffer v b) w) !! v = Some cur)
        by now rewrite Hvec.
      destruct (IH _ _ _ _ Hv1 H) as (auxs & Hv' & HF & Ho & Hd & Hreg & Hnd).
      exists auxs. split; [exact Hv'|]. split; [exact HF|].
      split; [intros u Hu; now rewrite (Ho u Hu), Hvec|].
      split; [now rewrite <- Hdm|].
      split; [|exact Hnd].
      eapply Forall_impl; [exact Hreg|]. simpl. intros a [Ha1 Ha2].
      split; [now rewrite <- Hdm | exact Ha2].
  - inversion H; subst. exists [].
    rewrite app_nil_r. rewrite drop_ge by now apply lookup_ge_None.
    split; [exact Hv|]. split; [constructor|].
    split; [reflexivity|]. split; [reflexivity|].
    split; constructor.
Qed.

(** The capture loop ends on every vector and leaves it extended by one
    auxiliary buffer for each non-depth BLOB buffer it held, in their
    order, the original buffers being kept: also when the vector holds
    several BLOB buffers.  Each auxiliary buffer has an image region of its
    own that was not allocated before; no region allocated before is
    released, and no other vector is touched. *)
Theorem captureLoop_appends_one_per_blob (v : ptr) (bs : Buffers) (w : World) :
  vectors w !! v = Some bs ->
  exists w' auxs,
    captureLoop (captureFuel w v) 0 v w = Some w' /\
    vectors w' !! v = Some (bs ++ auxs) /\
    Forall2 auxOf (List.filter isBlob bs) auxs /\
    length auxs = blobs bs /\
    (forall u, u <> v -> vectors w' !! u = vectors w !! u) /\
    dom (heap w) ⊆ dom (heap w') /\
    Forall (fun a => (img a ∉ dom (heap w)) /\ (img a ∈ dom (heap w'))) auxs /\
    NoDup (img <$> auxs).
Proof.
  intros Hv.
  destruct (captureLoop_total v w bs Hv) as [w' Hw'].
  destruct (captureLoop_vector v _ _ _ _ _ Hv Hw')
    as (auxs & Hv' & HF & Ho & Hd & Hreg & Hnd).
  rewrite drop_0 in HF.
  exists w', auxs. repeat (split; [assumption|]).
  split; [|repeat (split; [assumption|]); exact Hnd].
  unfold blobs. symmetry. exact (Forall2_length _ _ _ HF).
Qed.

Lemma captureLoop_appends_one_per_blob_witness :
  exists w' auxs,
    captureLoop (captureFuel (world0 0 [blob2x2; depthBlob; blob2x2] 0) 64) 0 64
      (world0 0 [blob2x2; depthBlob; blob2x2] 0) = Some w' /\
    vectors w' !! 64 = Some ([blob2x2; depthBlob; blob2x2] ++ auxs) /\
    length auxs = 2%nat.
Proof.
  destruct (captureLoop_appends_one_per_blob 64 [blob2x2; depthBlob; blob2x2]
              (world0 0 [blob2x2; depthBlob; blob2x2] 0))
    as (w' & auxs & H1 & H2 & _ & H3 & _); [reflexivity|].
  exists w', auxs. repeat split; assumption.
Defined.

(** ** What is sent to the host camera *)

Lemma capture_wellFormed k img wd ht st w :
  exists evs, trace (exec (capture k img wd ht st) w) = trace w ++ evs /\
              forallb wellFormedQuery evs = true.
Proof.
  open_world w. destruct k; unfold_capture; unfold_monad;
    repeat match goal with
           | |- context [Z.eqb ?a ?b] => destruct (Z.eqb a b) eqn:?; simpl
           end;
    eexists; (split; [trace_norm; reflexivity|]); simpl;
    repeat match goal with
           | |- context [Z.eqb ?a ?b] => destruct (Z.eqb a b) eqn:?; simpl
           end; reflexivity.
Qed.

Lemma captureBuffer_wellFormed v b w :
  exists evs, trace (exec (captureBuffer v b) w) = trace w ++ evs /\
              forallb wellFormedQuery evs = true.
Proof.
  destruct (captureBuffer_cases v b)
    as [[_ E]|[[_ E]|[[_ E]|(_ & _ & _ & fmt & E)]]]; rewrite E.
  - apply capture_wellFormed.
  - apply capture_wellFormed.
  - exists []. open_world w. split; [symmetry; apply app_nil_r | reflexivity].
  - exists [EvLog LOG_ERROR fmt]. open_world w. split; reflexivity.
Qed.

Lemma captureLoop_wellFormed v fuel :
  forall i w w',
    captureLoop fuel i v w = Some w' ->
    exists evs, trace w' = trace w ++ evs /\ forallb wellFormedQuery evs = true.
Proof.
  induction fuel as [|fuel IH]; intros i w w' H; [discriminate|].
  simpl in H.
  destruct (vectors w !! v) as [bs|]; [|discriminate].
  destruct (bs !! i) as [b|].
  - apply IH in H. destruct H as (evs & Ht & He).
    destruct (captureBuffer_wellFormed v b w) as (evs0 & Ht0 & He0).
    exists (evs0 ++ evs). split.
    + rewrite Ht, Ht0. now rewrite app_assoc.
    + rewrite forallb_app, He0, He. reflexivity.
  - inversion H; subst.
    exists []. split; [symmetry; apply app_nil_r | reflexivity].
Qed.

Lemma forallb_impl {A} (P Q : A -> bool) (l : list A) :
  (forall x, P x = true -> Q x = true) ->
  forallb P l = true -> forallb Q l = true.
Proof.
  intros HPQ. induction l as [|x l IH]; [reflexivity|]. simpl.
  intros H. apply andb_prop in H as [Hx Hl]. now rewrite (HPQ x Hx), IH.
Qed.

Lemma stage2_wellFormed c t w3 w4 :
  threadLoop_stage2 c t w3 = Some w4 ->
  exists evs, trace w4 = trace w3 ++ evs /\ forallb wellFormedQuery evs = true.
Proof.
  unfold threadLoop_stage2.
  destruct c as [fd nb fn l]. open_world w3. unfold_monad.
  destruct (nb =? nullptr).
  - intros H. injection H as <-. exists [].
    split; [symmetry; apply app_nil_r | reflexivity].
  - intros H. apply captureLoop_wellFormed in H as (evs & Ht & He).
    destruct (l =? nullptr); simpl in Ht.
    + exists evs. split; assumption.
    + eexists. split; [rewrite Ht; trace_norm; reflexivity|]. exact He.
Qed.



(** ** The region of an auxiliary buffer is large enough *)

Lemma nv21_size_le_aux_size (x : Z) :
  0 <= u32 (u32 x * 12) / 8 <= u32 (u32 x * 3).
Proof.
  unfold u32.
  assert (H : (x mod 2 ^ 32 * 12) mod 2 ^ 32 =
              (4 * ((x mod 2 ^ 32 * 3) mod 2 ^ 32)) mod 2 ^ 32).
  { rewrite Z.mul_mod_idemp_r by discriminate. f_equal. lia. }
  rewrite H. clear H.
  generalize (Z.mod_pos_bound (x mod 2 ^ 32 * 3) (2 ^ 32) eq_refl).
  generalize ((x mod 2 ^ 32 * 3) mod 2 ^ 32). intros y Hy.
  change (2 ^ 32) with 4294967296 in *.
  Z.div_mod_to_equations. lia.
Qed.



(** ** Iterations *)

Lemma filter_none {A} (P Q : A -> bool) (l : list A) :
  (forall x, P x = true -> Q x = false) ->
  forallb P l = true -> List.filter Q l = [].
Proof.
  intros HPQ. induction l as [|x l IH]; [reflexivity|]. simpl.
  intros H. apply andb_prop in H as [Hx Hl]. now rewrite (HPQ x Hx), IH.
Qed.

Lemma handoffEvents_quiet s :
  List.filter isUpstream (handoffEvents s) = [] /\
  List.filter isExposureStart (handoffEvents s) = [].
Proof.
  unfold handoffEvents.
  destruct (mNextCapturedBuffers s =? nullptr); [split; reflexivity|].
  destruct (mCapturedBuffers s =? nullptr); split; reflexivity.
Qed.

(** An iteration sends at most one EXPOSURE_START notification: exactly one
    when it took a vector and a listener is registered, none otherwise; it
    goes to the listener and carries the frame number found in the control
    slot at the snapshot, and the timestamp of the iteration. *)
Theorem one_exposure_start_per_iteration (wake : Wakeup) (w : World) :
  validNext w ->
  exists w',
    threadLoop wake w = Some (true, w') /\
    List.filter isExposureStart (emitted w w') =
      (if (mNextBuffers (sensor w) =? nullptr) || (mListener (sensor w) =? nullptr)
       then []
       else [EvExposureStart (mListener (sensor w)) (mFrameNumber (sensor w))
               (startTime w)]).
Proof.
  intros Hv.
  destruct (threadLoop_shape wake w Hv)
    as (w' & cap & pac & Hrun & Ht & Hc & Hp & _).
  exists w'. split; [exact Hrun|].
  rewrite (emitted_app _ _ _ Ht). simpl.
  rewrite !List.filter_app.
  rewrite (proj2 (handoffEvents_quiet (sensor w))).
  rewrite (filter_none isCaptureEvent isExposureStart cap)
    by (try exact Hc; intros [] ?; try discriminate; reflexivity).
  rewrite (filter_none isPacingEvent isExposureStart pac)
    by (try exact Hp; intros [] ?; try discriminate; reflexivity).
  unfold exposureEvents.
  destruct ((mNextBuffers (sensor w) =? nullptr) ||
            (mListener (sensor w) =? nullptr)); reflexivity.
Qed.

Lemma one_exposure_start_per_iteration_witness :
  exists w',
    threadLoop (mkWakeup 0 0) (world0 0 [blob2x2] 9) = Some (true, w') /\
    List.filter isExposureStart (emitted (world0 0 [blob2x2] 9) w') =
      [EvExposureStart 9 0 1000].
Proof.
  apply (one_exposure_start_per_iteration (mkWakeup 0 0) (world0 0 [blob2x2] 9)).
  right. vm_compute. eexists. reflexivity.
Defined.

(** An iteration that finds no destination buffers in the control slot
    sends no query to the host camera and no notification to the listener,
    and leaves the vectors, the image regions, the resolution latch and the
    device state as they were. *)
Theorem idle_iteration_is_silent (wake : Wakeup) (w : World) :
  mNextBuffers (sensor w) = nullptr ->
  exists w',
    threadLoop wake w = Some (true, w') /\
    upstream (emitted w w') = [] /\
    List.filter isExposureStart (emitted w w') = [] /\
    vectors w' = vectors w /\ heap w' = heap w /\
    latch (sensor w') = latch (sensor w) /\
    mState (sensor w') = mState (sensor w).
Proof.
  intros Hn.
  destruct (threadLoop_shape wake w (or_introl Hn))
    as (w' & cap & pac & Hrun & Ht & Hc & Hp & _ & Hidle).
  destruct (Hidle Hn) as (-> & Hvec & Hheap & Hl & Hs).
  exists w'. split; [exact Hrun|].
  rewrite (emitted_app _ _ _ Ht). unfold upstream, exposureEvents.
  rewrite Hn. simpl. rewrite !List.filter_app.
  destruct (handoffEvents_quiet (sensor w)) as [-> ->].
  rewrite (filter_none isPacingEvent isUpstream pac)
    by (try exact Hp; intros [] ?; try discriminate; reflexivity).
  rewrite (filter_none isPacingEvent isExposureStart pac)
    by (try exact Hp; intros [] ?; try discriminate; reflexivity).
  repeat split; assumption.
Qed.

Lemma idle_iteration_is_silent_witness :
  exists w',
    threadLoop (mkWakeup 0 0) (set_sensor (with_mNextBuffers nullptr) stalled) =
      Some (true, w') /\
    upstream (emitted (set_sensor (with_mNextBuffers nullptr) stalled) w') = [].
Proof.
  destruct (idle_iteration_is_silent (mkWakeup 0 0)
              (set_sensor (with_mNextBuffers nullptr) stalled))
    as (w' & H1 & H2 & _); [reflexivity|].
  exists w'. split; assumption.
Defined.

(** The first iteration after [readyToRun] hands nothing over: whatever the
    sensor thread held from an earlier run is dropped, the readout mutex is
    not even taken, and the readout slot is left as it was. *)
Theorem first_iteration_publishes_nothing (wake : Wakeup) (w : World) :
  validNext w ->
  let w0 := exec readyToRun w in
  exists w' captures pacing,
    threadLoop wake w0 = Some (true, w') /\
    emitted w0 w' =
      [EvLock mControlMutex; EvSignal mVSync; EvUnlock mControlMutex;
       EvSystemTime (startTime w0)] ++
      exposureEvents (sensor w0) (startTime w0) ++ captures ++ pacing /\
    forallb isCaptureEvent captures = true /\
    forallb isPacingEvent pacing = true /\
    mCapturedBuffers (sensor w') = mCapturedBuffers (sensor w) /\
    mCaptureTime (sensor w') = mCaptureTime (sensor w) /\
    mStartupTime (sensor w') = startTime w.
Proof.
  intros Hv w0.
  assert (H0 : mNextCapturedBuffers (sensor w0) = nullptr /\
               mNextBuffers (sensor w0) = mNextBuffers (sensor w) /\
               vectors w0 = vectors w /\
               mCapturedBuffers (sensor w0) = mCapturedBuffers (sensor w) /\
               mCaptureTime (sensor w0) = mCaptureTime (sensor w) /\
               mStartupTime (sensor w0) = startTime w).
  { subst w0. clear. open_world w. repeat split. }
  destruct H0 as (Hncb & Hnb & Hvec & Hcb & Hct & Hsu).
  assert (Hv0 : validNext w0) by (unfold validNext; now rewrite Hnb, Hvec).
  destruct (threadLoop_shape wake w0 Hv0)
    as (w' & cap & pac & Hrun & Ht & Hc & Hp & Hslots & _).
  apply slots_fields in Hslots as (_ & _ & _ & _ & _ & Hrd & Hsu' & _ & _).
  rewrite Hncb in Hrd. simpl in Hrd. injection Hrd as Hcb' Hct'.
  exists w', cap, pac. split; [exact Hrun|].
  split.
  { apply emitted_app. rewrite Ht. unfold handoffEvents. rewrite Hncb.
    reflexivity. }
  repeat split; try assumption; congruence.
Qed.

Lemma first_iteration_publishes_nothing_witness :
  exists w',
    threadLoop (mkWakeup 0 0) (exec readyToRun stalled) = Some (true, w') /\
    mCapturedBuffers (sensor w') = 100 /\ mCaptureTime (sensor w') = 5.
Proof.
  destruct (first_iteration_publishes_nothing (mkWakeup 0 0) stalled)
    as (w' & c & p & H1 & _ & _ & _ & H2 & H3 & _).
  { right. vm_compute. eexists. reflexivity. }
  exists w'. repeat split; assumption.
Defined.

(** ** Pacing *)

Lemma s64_small z : - 2 ^ 63 <= z < 2 ^ 63 -> s64 z = z.
Proof. intros H. unfold s64. rewrite Z.mod_small; lia. Qed.

(** The vertical blanking interval: with a frame end [fe] and a clock within
    the range where [nsecs_t] does not overflow, the thread sleeps exactly
    when more than 2 ms are left to the frame end; the [timespec] it passes
    to [nanosleep] is then the whole remaining time, with a nanosecond part
    in [0, 10^9) and a non-negative second part. *)
Theorem vblank_sleeps_the_remaining_time (fe : Z) (w : World) :
  let t1 := clock (host w) (ticks (host w)) in
  let t2 := clock (host w) (S (ticks (host w))) in
  let w' := exec (threadLoop_vblank fe) w in
  - 2 ^ 61 <= fe <= 2 ^ 61 ->
  - 2 ^ 61 <= t1 <= 2 ^ 61 ->
  (if t1 <? fe - 2000000
   then exists sec nsec,
          emitted w w' = [EvSystemTime t1; EvNanosleep sec nsec; EvSystemTime t2] /\
          sec * 1000000000 + nsec = fe - t1 /\
          0 <= sec /\ 0 <= nsec < 1000000000
   else emitted w w' = [EvSystemTime t1; EvSystemTime t2]) /\
  sensor w' = sensor w /\ vectors w' = vectors w /\ heap w' = heap w.
Proof.
  intros t1 t2 w' Hfe Ht. subst t1 t2 w'.
  pose proof (emitted_app w) as Hout.
  open_world w. simpl in *.
  unfold threadLoop_vblank, systemTime.
  unfold exec, eval, bind, ret, when, event.
  cbn -[s64 Z.quot Z.rem Z.ltb Z.sub emitted].
  rewrite (s64_small (fe - 2000000)) by lia.
  match goal with
  | |- context [?a <? ?b] => destruct (Z.ltb_spec a b) as [Hlt|Hge]
  end; cbn -[s64 Z.quot Z.rem Z.sub emitted].
  - repeat match goal with
           | |- context [s64 ?z] => rewrite (s64_small z) by lia
           end.
    split; [|repeat split].
    eexists. eexists.
    split; [erewrite Hout by (simpl; trace_norm; reflexivity); reflexivity|].
    match goal with
    | |- context [Z.quot ?a ?b] =>
        pose proof (Z.quot_rem' a b) as Hqr;
        pose proof (Z.rem_bound_pos a b) as Hb;
        pose proof (Z.quot_pos a b) as Hq
    end.
    split; [lia|]. split; [apply Hq; lia | apply Hb; lia].
  - split; [|repeat split].
    erewrite Hout by (simpl; trace_norm; reflexivity). reflexivity.
Qed.

Lemma vblank_sleeps_the_remaining_time_witness :
  emitted (world0 0 [] 0)
    (exec (threadLoop_vblank 3200001000) (world0 0 [] 0)) =
    [EvSystemTime 1000; EvNanosleep 3 200000000; EvSystemTime 40001000].
Proof.
  destruct (vblank_sleeps_the_remaining_time 3200001000 (world0 0 [] 0))
    as [H _]; [simpl; lia | simpl; lia |].
  simpl in H. destruct H as (sec & nsec & He & Hsum & Hs & Hn).
  assert (sec = 3) by lia. assert (nsec = 200000000) by lia.
  subst. exact He.
Defined.

(** ** Lock discipline *)

Lemma lockRun_app held a b :
  lockRun held (a ++ b) =
    match lockRun held a with
    | Some held' => lockRun held' b
    | None => None
    end.
Proof.
  revert held. induction a as [|e a IH]; intros held; [reflexivity|].
  simpl. destruct (lockStep held e); [apply IH | reflexivity].
Qed.

Lemma lockRun_free (P : Event -> bool) (evs : list Event) :
  (forall e, P e = true -> lockStep None e = Some None) ->
  forallb P evs = true -> lockRun None evs = Some None.
Proof.
  intros HP. induction evs as [|e evs IH]; [reflexivity|].
  simpl. intros H. apply andb_prop in H as [He Hevs].
  now rewrite (HP e He), IH.
Qed.

(** Every iteration of the sensor thread keeps the lock discipline: it
    never holds the two mutexes at once, signals and waits on a condition
    only under its mutex, releases each mutex it takes, and sends every
    query to the host camera, calls the listener and sleeps with no mutex
    held. *)
Theorem iteration_lock_discipline (wake : Wakeup) (w : World) :
  validNext w ->
  exists w',
    threadLoop wake w = Some (true, w') /\ disciplined (emitted w w').
Proof.
  intros Hv.
  destruct (threadLoop_shape wake w Hv)
    as (w' & cap & pac & Hrun & Ht & Hc & Hp & _).
  exists w'. split; [exact Hrun|].
  unfold disciplined. rewrite (emitted_app _ _ _ Ht).
  assert (Hh : lockRun None (handoffEvents (sensor w)) = Some None).
  { unfold handoffEvents.
    destruct (mNextCapturedBuffers (sensor w) =? nullptr); [reflexivity|].
    destruct (mCapturedBuffers (sensor w) =? nullptr); reflexivity. }
  assert (He : lockRun None (exposureEvents (sensor w) (startTime w)) = Some None).
  { unfold exposureEvents.
    destruct ((mNextBuffers (sensor w) =? nullptr) ||
              (mListener (sensor w) =? nullptr)); reflexivity. }
  cbn [app lockRun lockStep Mutex_eqb mutexOf].
  rewrite lockRun_app, Hh, lockRun_app, He, lockRun_app.
  rewrite (lockRun_free isCaptureEvent cap)
    by (try exact Hc; intros [] ?; try discriminate; reflexivity).
  apply (lockRun_free isPacingEvent); [|exact Hp].
  intros [] ?; try discriminate; reflexivity.
Qed.

Lemma iteration_lock_discipline_witness :
  exists w',
    threadLoop (mkWakeup 0 0) stalled = Some (true, w') /\
    disciplined (emitted stalled w').
Proof.
  apply (iteration_lock_discipline (mkWakeup 0 0) stalled).
  right. vm_compute. eexists. reflexivity.
Defined.

(** Every function of the control surface and of the readout keeps the
    lock discipline, on each of its paths: the mutex it takes is released
    at every return, errors and timeouts included, and no function takes
    both. *)
Theorem control_surface_lock_discipline (c : Call) (w : World) :
  disciplined (emitted w (perform c w)).
Proof.
  unfold disciplined.
  pose proof (emitted_app w) as Hout.
  open_world w. simpl in *.
  destruct c; unfold_calls; unfold_monad; split_ifs;
    (erewrite Hout by (simpl; trace_norm; reflexivity)); reflexivity.
Qed.

(** ** VSync *)


